(** * The in-memory security event store

    A shallow embedding of [MockDataStore] (the bounded event store with its
    enrichment step, similarity search, aggregate statistics and the
    continuous-generation loop), of the fallback path of
    [AISecurityAnalyzer], of the routes that read and update the store and of
    the event generator that feeds it, followed by the properties of the
    store that the specification states and by further properties of the
    code.

    JavaScript numbers that hold measurements (embedding components,
    similarities, confidence scores) are IEEE 754 binary64 values and are
    embedded as primitive floats; numbers that hold counts, lengths, indices
    and millisecond timestamps are embedded as [Z]. *)

From Stdlib Require Import ZArith List String Ascii Bool Lia Floats.
From Stdlib Require Import Sorted Permutation.
From Stdlib Require Import DecimalString.
Import ListNotations.

Set Warnings "-inexact-float".

Local Open Scope string_scope.
Local Open Scope Z_scope.
Local Open Scope list_scope.

(** ** Data model ([SecurityEvent], [ThreatAnalysis]) *)

Inductive EventType :=
  | intrusion | malware | network_anomaly | data_breach | phishing | dos_attack.

Inductive Severity := low | medium | high | critical.

Inductive Status := new | investigating | resolved | false_positive.

Definition EventType_str (t : EventType) : string :=
  match t with
  | intrusion => "intrusion"
  | malware => "malware"
  | network_anomaly => "network_anomaly"
  | data_breach => "data_breach"
  | phishing => "phishing"
  | dos_attack => "dos_attack"
  end.

Definition Severity_str (s : Severity) : string :=
  match s with
  | low => "low" | medium => "medium" | high => "high" | critical => "critical"
  end.

Definition Status_str (s : Status) : string :=
  match s with
  | new => "new"
  | investigating => "investigating"
  | resolved => "resolved"
  | false_positive => "false_positive"
  end.

Definition EventType_eqb (a b : EventType) : bool :=
  String.eqb (EventType_str a) (EventType_str b).

Definition Severity_eqb (a b : Severity) : bool :=
  String.eqb (Severity_str a) (Severity_str b).

Definition Status_eqb (a b : Status) : bool :=
  String.eqb (Status_str a) (Status_str b).

(** [raw_data] is an arbitrary JSON value; it is only ever serialised, so it is
    kept in its serialised form.  A field marked [?] in the interface is an
    [option]: [None] is JavaScript's [undefined]. *)
Record SecurityEvent := {
  id : string;
  timestamp : Z;
  event_type : EventType;
  severity : Severity;
  source_ip : string;
  destination_ip : option string;
  description : string;
  raw_data : string;
  ai_analysis : option string;
  confidence_score : option float;
  status : Status;
  tags : list string;
  embedding : option (list float)
}.

Record ThreatAnalysis := {
  threat_type : string;
  severity_justification : string;
  recommended_actions : list string;
  ta_confidence_score : float;
  risk_level : Severity;
  similar_attacks : list string;
  indicators_of_compromise : list string
}.

(** A promise that has settled: fulfilled with a value, or rejected. *)
Inductive Outcome (A : Type) :=
  | Resolved (a : A)
  | Rejected.
Arguments Resolved {A} a.
Arguments Rejected {A}.

(** ** The analyzer's fallback path ([AISecurityAnalyzer]) *)

Module Analyzer.

(** The three entries of the object literal [mockAnalyses], in source order. *)
Definition mockIntrusion : ThreatAnalysis :=
  {| threat_type := "Unauthorized Access Attempt";
     severity_justification := "Multiple failed authentication attempts from suspicious IP address indicating potential brute force attack";
     recommended_actions :=
       [ "Block source IP address immediately";
         "Review and strengthen authentication policies";
         "Monitor for additional attempts from same subnet";
         "Verify integrity of targeted accounts" ];
     ta_confidence_score := 0.87%float;
     risk_level := high;
     similar_attacks := ["Credential stuffing"; "Dictionary attack"; "SSH brute force"];
     indicators_of_compromise :=
       ["Rapid authentication failures"; "Non-standard user agent"; "Geographic anomaly"] |}.

Definition mockMalware : ThreatAnalysis :=
  {| threat_type := "Malicious File Execution";
     severity_justification := "Detected execution of known malicious binary with suspicious network communications";
     recommended_actions :=
       [ "Isolate affected system immediately";
         "Run full system scan with updated definitions";
         "Check for lateral movement indicators";
         "Preserve system image for forensic analysis" ];
     ta_confidence_score := 0.94%float;
     risk_level := critical;
     similar_attacks := ["Trojan deployment"; "Ransomware execution"; "Remote access tool"];
     indicators_of_compromise :=
       ["Suspicious process execution"; "Unexpected network traffic"; "File system modifications"] |}.

Definition mockNetworkAnomaly : ThreatAnalysis :=
  {| threat_type := "Abnormal Network Traffic Pattern";
     severity_justification := "Unusual data exfiltration patterns detected suggesting potential data breach";
     recommended_actions :=
       [ "Monitor network traffic for sensitive data";
         "Check data access logs for anomalies";
         "Verify user account activities";
         "Review firewall and DLP policies" ];
     ta_confidence_score := 0.76%float;
     risk_level := medium;
     similar_attacks := ["Data exfiltration"; "Command and control communication"; "DNS tunneling"];
     indicators_of_compromise :=
       ["Unusual data volumes"; "Off-hours activity"; "Encrypted communications"] |}.

Definition mockAnalyses : list (string * ThreatAnalysis) :=
  [ ("intrusion", mockIntrusion);
    ("malware", mockMalware);
    ("network_anomaly", mockNetworkAnomaly) ].

(** Property access [obj[key]] on an object literal: the entry stored under
    [key], or [None] for [undefined]. *)
Fixpoint lookup {V : Type} (key : string) (obj : list (string * V)) : option V :=
  match obj with
  | [] => None
  | (k, v) :: rest => if String.eqb k key then Some v else lookup key rest
  end.

(** [a || b] on values that are objects or [undefined]. *)
Definition or_else {V : Type} (a b : option V) : option V :=
  match a with
  | Some v => Some v
  | None => b
  end.

(** [getMockAnalysis(event)]: the argument is a [Partial<SecurityEvent>], of
    which only [event_type] is read; [None] is an event without that field,
    whose key is no key of the table.  The result is
    [mockAnalyses[event.event_type] || mockAnalyses['intrusion']]; the right
    operand is an entry of the literal, so the result is always an analysis. *)
Definition getMockAnalysis (event_type : option EventType) : ThreatAnalysis :=
  let own :=
    match event_type with
    | Some t => lookup (EventType_str t) mockAnalyses
    | None => None
    end in
  match or_else own (lookup "intrusion" mockAnalyses) with
  | Some a => a
  | None => mockIntrusion
  end.

(** What the external chat-completion request does, as far as
    [analyzeSecurityEvent] can tell. *)
Inductive Completion :=
  | CompletionFails                        (* [create] rejects *)
  | CompletionEmpty                        (* no message content: the code throws *)
  | CompletionUnparsable                   (* [JSON.parse] throws *)
  | CompletionParsed (a : ThreatAnalysis).  (* [JSON.parse] returns *)

(** [analyzeSecurityEvent(event)].  [api_key] tells whether
    [process.env.OPENAI_API_KEY] is set (truthy).  Every exception raised in
    the body is caught there, so the promise is always fulfilled. *)
Definition analyzeSecurityEvent (api_key : bool) (c : Completion)
    (event_type : option EventType) : Outcome ThreatAnalysis :=
  if negb api_key then Resolved (getMockAnalysis event_type)
  else
    match c with
    | CompletionParsed a => Resolved a
    | CompletionFails | CompletionEmpty | CompletionUnparsable =>
        Resolved (getMockAnalysis event_type)
    end.

(** [generateEmbedding(text)]: the embedding the provider returned, or a
    vector of 1536 draws of [Math.random() * 2 - 1] when no key is set or the
    request fails.  [response] is what the embeddings request does, [random]
    the 1536 draws; the promise is always fulfilled. *)
Definition generateEmbedding (api_key : bool) (response : Outcome (list float))
    (random : list float) : Outcome (list float) :=
  if negb api_key then Resolved random
  else
    match response with
    | Resolved v => Resolved v
    | Rejected => Resolved random
    end.

End Analyzer.

(** ** The event store ([MockDataStore]) *)

Module Store.

Record MockDataStore := {
  events : list SecurityEvent;
  isGenerating : bool
}.

(** The fields as the constructor leaves them, before the sample data
    arrive. *)
Definition empty : MockDataStore := {| events := []; isGenerating := false |}.

Definition set_events (s : MockDataStore) (l : list SecurityEvent) : MockDataStore :=
  {| events := l; isGenerating := isGenerating s |}.

Definition set_isGenerating (s : MockDataStore) (b : bool) : MockDataStore :=
  {| events := events s; isGenerating := b |}.

(** [Omit<SecurityEvent, 'id'>], the argument of [addEvent]. *)
Record NewEvent := {
  n_timestamp : Z;
  n_event_type : EventType;
  n_severity : Severity;
  n_source_ip : string;
  n_destination_ip : option string;
  n_description : string;
  n_raw_data : string;
  n_ai_analysis : option string;
  n_confidence_score : option float;
  n_status : Status;
  n_tags : list string;
  n_embedding : option (list float)
}.

(** The object literal [{ id: uuidv4(), ...eventData }]. *)
Definition withId (uuid : string) (d : NewEvent) : SecurityEvent :=
  {| id := uuid;
     timestamp := n_timestamp d;
     event_type := n_event_type d;
     severity := n_severity d;
     source_ip := n_source_ip d;
     destination_ip := n_destination_ip d;
     description := n_description d;
     raw_data := n_raw_data d;
     ai_analysis := n_ai_analysis d;
     confidence_score := n_confidence_score d;
     status := n_status d;
     tags := n_tags d;
     embedding := n_embedding d |}.

(** Assignments to single fields of an event. *)
Definition set_status (e : SecurityEvent) (st : Status) : SecurityEvent :=
  {| id := id e; timestamp := timestamp e; event_type := event_type e;
     severity := severity e; source_ip := source_ip e;
     destination_ip := destination_ip e; description := description e;
     raw_data := raw_data e; ai_analysis := ai_analysis e;
     confidence_score := confidence_score e; status := st; tags := tags e;
     embedding := embedding e |}.

Definition set_ai_analysis (e : SecurityEvent) (a : string) : SecurityEvent :=
  {| id := id e; timestamp := timestamp e; event_type := event_type e;
     severity := severity e; source_ip := source_ip e;
     destination_ip := destination_ip e; description := description e;
     raw_data := raw_data e; ai_analysis := Some a;
     confidence_score := confidence_score e; status := status e; tags := tags e;
     embedding := embedding e |}.

Definition set_confidence_score (e : SecurityEvent) (c : float) : SecurityEvent :=
  {| id := id e; timestamp := timestamp e; event_type := event_type e;
     severity := severity e; source_ip := source_ip e;
     destination_ip := destination_ip e; description := description e;
     raw_data := raw_data e; ai_analysis := ai_analysis e;
     confidence_score := Some c; status := status e; tags := tags e;
     embedding := embedding e |}.

Definition set_embedding (e : SecurityEvent) (v : list float) : SecurityEvent :=
  {| id := id e; timestamp := timestamp e; event_type := event_type e;
     severity := severity e; source_ip := source_ip e;
     destination_ip := destination_ip e; description := description e;
     raw_data := raw_data e; ai_analysis := ai_analysis e;
     confidence_score := confidence_score e; status := status e; tags := tags e;
     embedding := Some v |}.

(** *** Array primitives *)

(** A relative index of [slice], clamped to the array. *)
Definition clamp (len k : Z) : Z :=
  if k <? 0 then Z.max (len + k) 0 else Z.min k len.

(** [l.slice(from, to)] for integer arguments. *)
Definition slice {A : Type} (l : list A) (from to : Z) : list A :=
  let len := Z.of_nat (List.length l) in
  let lo := clamp len from in
  let hi := clamp len to in
  firstn (Z.to_nat (hi - lo)) (skipn (Z.to_nat lo) l).

(** [l.sort(cmp)].  [after a b] is [cmp(a, b) > 0]: [a] has to come after [b].
    The sort is stable, so an element moves past exactly the elements it has
    to come after. *)
Fixpoint insert {A : Type} (after : A -> A -> bool) (x : A) (l : list A) : list A :=
  match l with
  | [] => [x]
  | y :: l' => if after x y then y :: insert after x l' else x :: l
  end.

Fixpoint sort {A : Type} (after : A -> A -> bool) (l : list A) : list A :=
  match l with
  | [] => []
  | x :: l' => insert after x (sort after l')
  end.

(** *** The asynchronous part: [addEvent]

    An [async] body is run as a function of the store it finds; it yields the
    settled result, the store it leaves, and the milestones it went through,
    in order.  A rejection skips the rest of the body up to the enclosing
    [try]. *)

Inductive Action :=
  | AnalysisSettled (fulfilled : bool)    (* [await analyzeSecurityEvent] resumed *)
  | EmbeddingSettled (fulfilled : bool)   (* [await generateEmbedding] resumed *)
  | Logged (msg : string)                 (* [console.error] *)
  | Unshifted (uuid : string)             (* the event entered [this.events] *)
  | Returned (uuid : string).             (* the promise of [addEvent] is fulfilled *)

Definition Async (A : Type) : Type :=
  MockDataStore -> Outcome A * MockDataStore * list Action.

Definition ret {A : Type} (a : A) : Async A :=
  fun s => (Resolved a, s, []).

Definition bind {A B : Type} (m : Async A) (f : A -> Async B) : Async B :=
  fun s =>
    match m s with
    | (Resolved a, s1, t1) =>
        let '(r, s2, t2) := f a s1 in (r, s2, t1 ++ t2)
    | (Rejected, s1, t1) => (Rejected, s1, t1)
    end.

Notation "x <- m ;; k" := (bind m (fun x => k))
  (at level 61, m at next level, right associativity).
Notation "m ;;; k" := (bind m (fun _ => k))
  (at level 61, right associativity).

Definition fulfilled {A : Type} (o : Outcome A) : bool :=
  match o with Resolved _ => true | Rejected => false end.

(** [await p] for a promise that settles as [o]. *)
Definition await {A : Type} (mark : bool -> Action) (o : Outcome A) : Async A :=
  fun s => (o, s, [mark (fulfilled o)]).

Definition tell (a : Action) : Async unit :=
  fun s => (Resolved tt, s, [a]).

Definition modify (f : MockDataStore -> MockDataStore) : Async unit :=
  fun s => (Resolved tt, f s, []).

(** [try { body } catch (error) { handler }]. *)
Definition try_catch {A : Type} (body handler : Async A) : Async A :=
  fun s =>
    match body s with
    | (Rejected, s1, t1) =>
        let '(r, s2, t2) := handler s1 in (r, s2, t1 ++ t2)
    | settled => settled
    end.

Section AddEvent.

(** [JSON.stringify] on an analysis. *)
Variable JSON_stringify : ThreatAnalysis -> string.

(** [addEvent(eventData)].  [uuid] is the value of [uuidv4()]; [analysis] and
    [vector] are how the promises of [aiAnalyzer.analyzeSecurityEvent(event)]
    and [aiAnalyzer.generateEmbedding(embeddingText)] settle. *)
Definition addEvent (uuid : string) (eventData : NewEvent)
    (analysis : Outcome ThreatAnalysis) (vector : Outcome (list float))
    : Async string :=
  let event := withId uuid eventData in
  event <- try_catch
             (a <- await AnalysisSettled analysis ;;
              ret (set_confidence_score
                     (set_ai_analysis event (JSON_stringify a))
                     (ta_confidence_score a)))
             (tell (Logged "Error generating AI analysis:") ;;; ret event) ;;
  event <- try_catch
             (v <- await EmbeddingSettled vector ;;
              ret (set_embedding event v))
             (tell (Logged "Error generating embedding:") ;;; ret event) ;;
  modify (fun s => set_events s (event :: events s)) ;;;
  tell (Unshifted (id event)) ;;;
  modify (fun s =>
            if 1000 <? Z.of_nat (List.length (events s))
            then set_events s (slice (events s) 0 1000)
            else s) ;;;
  tell (Returned (id event)) ;;;
  ret (id event).

End AddEvent.

(** *** Synchronous operations *)

(** [getEvents(limit, offset)]. *)
Definition getEvents (limit offset : Z) (s : MockDataStore) : list SecurityEvent :=
  slice (events s) offset (offset + limit).

(** [getEventById(id)]. *)
Definition getEventById (i : string) (s : MockDataStore) : option SecurityEvent :=
  find (fun event => String.eqb (id event) i) (events s).

(** Truthiness of an optional string argument: [undefined] and the empty
    string are falsy. *)
Definition truthy (a : option string) : bool :=
  match a with
  | None => false
  | Some EmptyString => false
  | Some (String _ _) => true
  end.

(** The two assignments in the body of [if (event)]. *)
Definition applyUpdate (st : Status) (aiAnalysis : option string)
    (event : SecurityEvent) : SecurityEvent :=
  let event := set_status event st in
  match aiAnalysis with
  | Some a => if truthy aiAnalysis then set_ai_analysis event a else event
  | None => event
  end.

(** In-place mutation of the object that [find] returns: the first element
    that satisfies [p] is replaced by its image, the array itself is the
    same. *)
Fixpoint mutate_first (p : SecurityEvent -> bool)
    (f : SecurityEvent -> SecurityEvent) (l : list SecurityEvent)
    : list SecurityEvent :=
  match l with
  | [] => []
  | e :: l' => if p e then f e :: l' else e :: mutate_first p f l'
  end.

(** [updateEventStatus(id, status, aiAnalysis)]: the flag returned and the
    store afterwards. *)
Definition updateEventStatus (i : string) (st : Status)
    (aiAnalysis : option string) (s : MockDataStore) : bool * MockDataStore :=
  match find (fun e => String.eqb (id e) i) (events s) with
  | Some _ =>
      (true,
       set_events s
         (mutate_first (fun e => String.eqb (id e) i) (applyUpdate st aiAnalysis)
            (events s)))
  | None => (false, s)
  end.

(** *** Similarity search *)

(** [cosineSimilarity(a, b)].  The loop runs over the indices of [a]; behind
    the length test both arrays have those indices. *)
Definition cosineSimilarity (a b : list float) : float :=
  if negb (Nat.eqb (List.length a) (List.length b)) then 0%float
  else
    let '(dotProduct, normA, normB) :=
      fold_left
        (fun '(dotProduct, normA, normB) '(ai, bi) =>
           ((dotProduct + ai * bi)%float,
            (normA + ai * ai)%float,
            (normB + bi * bi)%float))
        (combine a b) (0%float, 0%float, 0%float) in
    (dotProduct / (sqrt normA * sqrt normB))%float.

(** [event.embedding] as a condition: an array, even an empty one, is truthy. *)
Definition has_embedding (event : SecurityEvent) : bool :=
  match embedding event with Some _ => true | None => false end.

(** [event.embedding!] behind the filter that keeps the events with one. *)
Definition the_embedding (event : SecurityEvent) : list float :=
  match embedding event with Some v => v | None => [] end.

(** The comparator [(a, b) => b.similarity - a.similarity], as the test
    [cmp(a, b) > 0] the sort makes. *)
Definition less_similar (a b : SecurityEvent * float) : bool :=
  (0 <? snd b - snd a)%float.

(** [searchSimilarEvents(targetEvent, threshold, limit)]. *)
Definition searchSimilarEvents (targetEvent : SecurityEvent) (threshold : float)
    (limit : Z) (s : MockDataStore) : list SecurityEvent :=
  match embedding targetEvent with
  | None => []
  | Some target =>
      let similarities :=
        slice
          (sort less_similar
             (filter (fun item => (threshold <? snd item)%float)
                (map (fun event =>
                        (event, cosineSimilarity target (the_embedding event)))
                   (filter (fun event =>
                              has_embedding event
                              && negb (String.eqb (id event) (id targetEvent)))
                      (events s)))))
          0 limit in
      map fst similarities
  end.

(** *** Aggregates *)

(** [acc[key] = (acc[key] || 0) + 1] on a [Record<string, number>].  The
    object keeps its keys in the order in which they were first written (no
    key of the store is an array index), which is the order [Object.entries]
    reports. *)
Fixpoint increment (key : string) (acc : list (string * Z)) : list (string * Z) :=
  match acc with
  | [] => [(key, 1)]
  | (k, n) :: rest =>
      if String.eqb k key then (k, n + 1) :: rest
      else (k, n) :: increment key rest
  end.

(** [this.events.reduce((acc, event) => { acc[key(event)]++ ... }, {})]. *)
Definition countBy (key : SecurityEvent -> string) (l : list SecurityEvent)
    : list (string * Z) :=
  fold_left (fun acc event => increment (key event) acc) l [].

(** [l.filter(p).length]. *)
Definition count (p : SecurityEvent -> bool) (l : list SecurityEvent) : Z :=
  Z.of_nat (List.length (filter p l)).

Record DailyStat := {
  date : string;
  d_events : Z;
  d_critical : Z;
  d_high : Z;
  d_medium : Z;
  d_low : Z
}.

Record Stats := {
  totalEvents : Z;
  recentEvents : Z;
  weeklyEvents : Z;
  criticalEvents : Z;
  highEvents : Z;
  resolvedEvents : Z;
  newEvents : Z;
  eventsByType : list (string * Z);
  eventsBySeverity : list (string * Z);
  eventsByStatus : list (string * Z);
  dailyStats : list DailyStat
}.

Section GetStats.

(** The calendar of the host: [setHours(0, 0, 0, 0)] and
    [setHours(23, 59, 59, 999)] on a date, as timestamps, and the day part of
    [toISOString()]. *)
Variable startOfDay : Z -> Z.
Variable endOfDay : Z -> Z.
Variable isoDate : Z -> string.

Definition ms_per_day : Z := 24 * 60 * 60 * 1000.

(** One turn of the loop over [i]. *)
Definition dailyStat (now : Z) (l : list SecurityEvent) (i : Z) : DailyStat :=
  let date0 := now - i * ms_per_day in
  let dayStart := startOfDay date0 in
  let dayEnd := endOfDay dayStart in
  let dayEvents :=
    filter (fun e => (dayStart <=? timestamp e) && (timestamp e <=? dayEnd)) l in
  {| date := isoDate dayStart;
     d_events := Z.of_nat (List.length dayEvents);
     d_critical := count (fun e => Severity_eqb (severity e) critical) dayEvents;
     d_high := count (fun e => Severity_eqb (severity e) high) dayEvents;
     d_medium := count (fun e => Severity_eqb (severity e) medium) dayEvents;
     d_low := count (fun e => Severity_eqb (severity e) low) dayEvents |}.

(** [getStats()]; [now] is the value of [new Date()]. *)
Definition getStats (now : Z) (s : MockDataStore) : Stats :=
  let oneDayAgo := now - ms_per_day in
  let oneWeekAgo := now - 7 * ms_per_day in
  {| totalEvents := Z.of_nat (List.length (events s));
     recentEvents := count (fun e => oneDayAgo <? timestamp e) (events s);
     weeklyEvents := count (fun e => oneWeekAgo <? timestamp e) (events s);
     criticalEvents := count (fun e => Severity_eqb (severity e) critical) (events s);
     highEvents := count (fun e => Severity_eqb (severity e) high) (events s);
     resolvedEvents := count (fun e => Status_eqb (status e) resolved) (events s);
     newEvents := count (fun e => Status_eqb (status e) new) (events s);
     eventsByType := countBy (fun e => EventType_str (event_type e)) (events s);
     eventsBySeverity := countBy (fun e => Severity_str (severity e)) (events s);
     eventsByStatus := countBy (fun e => Status_str (status e)) (events s);
     dailyStats := map (dailyStat now (events s)) [6; 5; 4; 3; 2; 1; 0] |}.

End GetStats.

(** [getRecentActivity(hours)]; [now] is the value of [Date.now()]. *)
Definition getRecentActivity (now hours : Z) (s : MockDataStore) : list SecurityEvent :=
  let cutoff := now - hours * 60 * 60 * 1000 in
  filter (fun event => cutoff <? timestamp event) (events s).

(** [key.split('_')]: never empty, one more part than separators. *)
Fixpoint split (sep : ascii) (key : string) : list string :=
  match key with
  | EmptyString => [EmptyString]
  | String c rest =>
      if Ascii.eqb c sep then EmptyString :: split sep rest
      else
        match split sep rest with
        | part :: parts => String c part :: parts
        | [] => [String c EmptyString]
        end
  end.

(** An element of the result of [getTopThreats]; a field is [None] where the
    destructuring of the split key leaves it [undefined]. *)
Record Threat := {
  t_type : option string;
  t_count : Z;
  t_severity : option string
}.

(** The template literal that groups the events. *)
Definition threatKey (event : SecurityEvent) : string :=
  (EventType_str (event_type event) ++ "_" ++ Severity_str (severity event))%string.

(** [([key, count]) => { const [type, severity] = key.split('_'); ... }]. *)
Definition toThreat (entry : string * Z) : Threat :=
  let '(key, n) := entry in
  let parts := split "_"%char key in
  {| t_type := nth_error parts 0; t_count := n; t_severity := nth_error parts 1 |}.

(** The comparator [(a, b) => b.count - a.count], as the test [cmp(a, b) > 0]. *)
Definition less_frequent (a b : Threat) : bool :=
  0 <? t_count b - t_count a.

(** [getTopThreats(limit)]. *)
Definition getTopThreats (limit : Z) (s : MockDataStore) : list Threat :=
  let threatCounts := countBy threatKey (events s) in
  slice (sort less_frequent (map toThreat threatCounts)) 0 limit.

(** *** Continuous generation

    [startContinuousGeneration] builds a closure [generateEvent] that issues
    one [addEvent] and re-arms itself with [setTimeout].  What the event loop
    holds for the store is kept next to it: the armed timers and the calls of
    [addEvent] that have not settled, each with the [intervalMs] its closure
    captured, and the number of [addEvent] calls the loop has issued. *)

Record Runtime := {
  store : MockDataStore;
  timers : list Z;
  inflight : list (Z * NewEvent);
  issued : nat
}.

(** What the event loop can do next. *)
Inductive Step :=
  | Start (intervalMs : Z) (generated : Outcome NewEvent)
      (* [startContinuousGeneration(intervalMs)] is called *)
  | Stop
      (* [stopContinuousGeneration()] is called *)
  | Fire (k : nat) (generated : Outcome NewEvent)
      (* the armed timer at position [k] expires *)
  | Settle (k : nat) (uuid : string) (analysis : Outcome ThreatAnalysis)
      (vector : Outcome (list float)).
      (* the pending [addEvent] at position [k] settles *)

(** [l] without its element at position [k]. *)
Definition remove_nth {A : Type} (k : nat) (l : list A) : list A :=
  firstn k l ++ skipn (S k) l.

(** The synchronous head of [generateEvent]: the guard, the generator, and the
    call of [addEvent] up to its first [await].  [generated] is what
    [dataGenerator.generateRandomEvent()] does; when it throws, the [catch]
    logs and the timer is armed at once. *)
Definition generateEvent (intervalMs : Z) (generated : Outcome NewEvent)
    (r : Runtime) : Runtime :=
  if negb (isGenerating (store r)) then r
  else
    match generated with
    | Resolved newEvent =>
        {| store := store r;
           timers := timers r;
           inflight := inflight r ++ [(intervalMs, newEvent)];
           issued := S (issued r) |}
    | Rejected =>
        {| store := store r;
           timers := timers r ++ [intervalMs];
           inflight := inflight r;
           issued := issued r |}
    end.

Section Scheduler.

Variable JSON_stringify : ThreatAnalysis -> string.

(** One turn of the event loop.  A timer or a pending call that is not there
    cannot come up. *)
Definition step (r : Runtime) (what : Step) : Runtime :=
  match what with
  | Start intervalMs generated =>
      if isGenerating (store r) then r
      else
        generateEvent intervalMs generated
          {| store := set_isGenerating (store r) true;
             timers := timers r;
             inflight := inflight r;
             issued := issued r |}
  | Stop =>
      {| store := set_isGenerating (store r) false;
         timers := timers r;
         inflight := inflight r;
         issued := issued r |}
  | Fire k generated =>
      match nth_error (timers r) k with
      | Some intervalMs =>
          generateEvent intervalMs generated
            {| store := store r;
               timers := remove_nth k (timers r);
               inflight := inflight r;
               issued := issued r |}
      | None => r
      end
  | Settle k uuid analysis vector =>
      match nth_error (inflight r) k with
      | Some (intervalMs, newEvent) =>
          let '(_, store', _) :=
            addEvent JSON_stringify uuid newEvent analysis vector (store r) in
          {| store := store';
             timers := timers r ++ [intervalMs];
             inflight := remove_nth k (inflight r);
             issued := issued r |}
      | None => r
      end
  end.

Definition run (r : Runtime) (l : list Step) : Runtime := fold_left step l r.

End Scheduler.

(** The runtime of a store nothing has been scheduled for. *)
Definition idle (s : MockDataStore) : Runtime :=
  {| store := s; timers := []; inflight := []; issued := 0 |}.

Definition is_start (what : Step) : bool :=
  match what with Start _ _ => true | _ => false end.

(** *** The sample data of the constructor *)

Definition set_timestamp (e : SecurityEvent) (ts : Z) : SecurityEvent :=
  {| id := id e; timestamp := ts; event_type := event_type e;
     severity := severity e; source_ip := source_ip e;
     destination_ip := destination_ip e; description := description e;
     raw_data := raw_data e; ai_analysis := ai_analysis e;
     confidence_score := confidence_score e; status := status e; tags := tags e;
     embedding := embedding e |}.

(** The comparator [(a, b) => b.timestamp.getTime() - a.timestamp.getTime()],
    as the test [cmp(a, b) > 0]. *)
Definition older (a b : SecurityEvent) : bool :=
  0 <? timestamp b - timestamp a.

(** One turn of the loop of [initializeWithSampleData] with everything it
    depends on: the generated event, the value of [uuidv4()], the timestamp
    drawn for it, and for each of the two enrichment steps whether the draw
    of [Math.random()] lets it run ([None] when it does not) and how its
    promise settles. *)
Record Sample := {
  s_uuid : string;
  s_data : NewEvent;
  s_timestamp : Z;
  s_analysis : option (Outcome ThreatAnalysis);
  s_vector : option (Outcome (list float))
}.

Section Initialize.

Variable JSON_stringify : ThreatAnalysis -> string.

(** The event that a turn pushes. *)
Definition sampleEventOf (x : Sample) : SecurityEvent :=
  let event := set_timestamp (withId (s_uuid x) (s_data x)) (s_timestamp x) in
  let event :=
    match s_analysis x with
    | Some (Resolved a) =>
        set_confidence_score (set_ai_analysis event (JSON_stringify a))
          (ta_confidence_score a)
    | Some Rejected | None => event
    end in
  match s_vector x with
  | Some (Resolved v) => set_embedding event v
  | Some Rejected | None => event
  end.

(** [initializeWithSampleData()], run to its end with no other call in
    between: the pushes, then the sort of the whole collection. *)
Definition initializeWithSampleData (samples : list Sample) (s : MockDataStore)
    : MockDataStore :=
  let s :=
    fold_left (fun s x => set_events s (events s ++ [sampleEventOf x])) samples s in
  set_events s (sort older (events s)).

End Initialize.

End Store.

(** ** The routes that use the store *)

Module Api.

Import Analyzer Store.

(** What a handler answers: a JSON body, [404], or [500]. *)
Inductive Response (A : Type) :=
  | Json (body : A)
  | NotFound
  | Failed.
Arguments Json {A} body.
Arguments NotFound {A}.
Arguments Failed {A}.

(** A filter of [GET /api/events]: a query parameter that is absent or empty
    does not filter; otherwise the events whose field is the parameter stay. *)
Definition passes (param : option string) (field : SecurityEvent -> string)
    (event : SecurityEvent) : bool :=
  match param with
  | Some v => if truthy param then String.eqb (field event) v else true
  | None => true
  end.

Record EventsPage := {
  page_events : list SecurityEvent;
  total : Z;
  hasMore : bool
}.

(** [GET /api/events] for a limit and an offset that parse as integers. *)
Definition listEvents (limit offset : Z) (severityParam eventType statusParam : option string)
    (s : MockDataStore) : EventsPage :=
  let events := getEvents 1000 0 s in
  let events := filter (passes severityParam (fun e => Severity_str (severity e))) events in
  let events := filter (passes eventType (fun e => EventType_str (event_type e))) events in
  let events := filter (passes statusParam (fun e => Status_str (status e))) events in
  {| page_events := slice events offset (offset + limit);
     total := Z.of_nat (List.length events);
     hasMore := offset + limit <? Z.of_nat (List.length events) |}.

Section Patch.

Variable JSON_stringify : ThreatAnalysis -> string.

(** [PATCH /api/events/:id] with the body [{ status, requestAnalysis }], run
    with no other call in between.  [api_key] and [c] are what
    [analyzeSecurityEvent] depends on. *)
Definition patchEvent (i : string) (st : Status) (requestAnalysis : bool)
    (api_key : bool) (c : Completion) (s : MockDataStore)
    : Response (option SecurityEvent) * MockDataStore :=
  let aiAnalysis : Outcome (option string) :=
    if requestAnalysis then
      match getEventById i s with
      | Some event =>
          match analyzeSecurityEvent api_key c (Some (event_type event)) with
          | Resolved analysis => Resolved (Some (JSON_stringify analysis))
          | Rejected => Rejected
          end
      | None => Resolved None
      end
    else Resolved None in
  match aiAnalysis with
  | Rejected => (Failed, s)
  | Resolved aiAnalysis =>
      let '(success, s') := updateEventStatus i st aiAnalysis s in
      if success then (Json (getEventById i s'), s') else (NotFound, s')
  end.

End Patch.

Record Similar := {
  similarEvents : list SecurityEvent;
  similar_count : Z
}.

(** [GET /api/events/:id/similar] for a limit that parses as an integer.  The
    body lists six fields of each of the similar events (of which the id is
    one) and their number; the events themselves stand for their entries. *)
Definition findSimilar (i : string) (threshold : float) (limit : Z)
    (s : MockDataStore) : Response Similar :=
  match getEventById i s with
  | None => NotFound
  | Some targetEvent =>
      let similarEvents := searchSimilarEvents targetEvent threshold limit s in
      Json {| similarEvents := similarEvents;
              similar_count := Z.of_nat (List.length similarEvents) |}
  end.

(** [type.replace('_', ' ')]: the first occurrence only. *)
Fixpoint replace_first (c d : ascii) (s : string) : string :=
  match s with
  | EmptyString => EmptyString
  | String x rest =>
      if Ascii.eqb x c then String d rest else String x (replace_first c d rest)
  end.

Record TypeCount := {
  tc_type : string;
  tc_count : Z
}.

(** The helper [getTopThreats(events)] of the report route. *)
Definition getTopThreats (l : list SecurityEvent) : list TypeCount :=
  let threatCounts := countBy (fun event => EventType_str (event_type event)) l in
  slice
    (sort (fun a b => 0 <? tc_count b - tc_count a)
       (map (fun entry =>
               {| tc_type := replace_first "_"%char " "%char (fst entry);
                  tc_count := snd entry |})
          threatCounts))
    0 5.

Record SourceCount := {
  sc_ip : string;
  sc_count : Z
}.

(** The names that every object literal inherits from [Object.prototype].
    Read on the empty record, [acc[k]] for such a name is not [undefined] but
    a function (for [__proto__], the prototype itself), so that
    [(acc[k] || 0) + 1] is a text and not a count; the assignment to
    [__proto__] stores nothing at all. *)
Definition Object_prototype_keys : list string :=
  [ "constructor"; "__defineGetter__"; "__defineSetter__"; "hasOwnProperty";
    "__lookupGetter__"; "__lookupSetter__"; "isPrototypeOf";
    "propertyIsEnumerable"; "toString"; "valueOf"; "__proto__";
    "toLocaleString" ].

Definition is_digit (c : ascii) : bool :=
  (48 <=? Z.of_N (N_of_ascii c)) && (Z.of_N (N_of_ascii c) <=? 57).

Fixpoint all_digits (s : string) : bool :=
  match s with
  | EmptyString => true
  | String c rest => is_digit c && all_digits rest
  end.

(** The keys made of decimal digits only, among which are the array indices:
    [Object.entries] lists array indices first, in ascending order, whenever
    they were inserted. *)
Definition digits_only (s : string) : bool :=
  match s with
  | EmptyString => false
  | String _ _ => all_digits s
  end.

(** The keys for which a record built from [{}] by
    [acc[k] = (acc[k] || 0) + 1] behaves as a table of counts in insertion
    order: those that name no inherited property and are no array index.  A
    dotted or a colon-separated address is such a key. *)
Definition counted_key (k : string) : bool :=
  negb (existsb (String.eqb k) Object_prototype_keys) && negb (digits_only k).

(** The helper [getCommonSources(events)] of the report route, on events whose
    source addresses are all [counted_key]s.  Only there is the record
    [sources] the table of counts that [countBy] builds; for another address
    the code keeps a text instead of a count (or nothing, or another order of
    the entries), [b - a] is then no order and what the sort leaves depends on
    the engine: this definition says nothing about the code there, and the
    property of [getCommonSources] below is stated for [counted_key]s only. *)
Definition getCommonSources (l : list SecurityEvent) : list SourceCount :=
  let sources := countBy source_ip l in
  map (fun entry => {| sc_ip := fst entry; sc_count := snd entry |})
    (slice (sort (fun a b => 0 <? snd b - snd a) sources) 0 10).

End Api.

(** ** The event generator ([CybersecurityDataGenerator]) *)

Module Generator.

Import Store.

Definition maliciousIPs : list string :=
  [ "192.168.1.100"; "10.0.0.50"; "172.16.0.25"; "203.0.113.5";
    "198.51.100.10"; "192.0.2.15"; "185.199.108.153"; "140.82.112.4" ].

Definition internalIPs : list string :=
  [ "192.168.1.10"; "192.168.1.20"; "10.0.0.5"; "172.16.0.10";
    "192.168.0.100"; "10.1.1.50"; "172.31.0.25" ].

Definition malwareNames : list string :=
  [ "Trojan.GenKryptik"; "Win32.Conficker"; "Backdoor.Poison"; "Ransomware.Crypto";
    "Worm.Mydoom"; "Spyware.Agent"; "Rootkit.ZeroAccess"; "Adware.Generic" ].

Definition attackVectors : list string :=
  [ "SQL Injection"; "Cross-Site Scripting"; "Buffer Overflow"; "Privilege Escalation";
    "Man-in-the-Middle"; "Phishing"; "Social Engineering"; "Zero-Day Exploit" ].

(** [array[Math.floor(Math.random() * array.length)]], for the index drawn;
    the index is below the length, so the access never yields [undefined]. *)
Definition getRandomElement (array : list string) (index : Z) : string :=
  nth (Z.to_nat index) array EmptyString.

(** [toLowerCase()] on a text of ASCII characters, as the texts of the tables
    above are. *)
Definition lower (c : ascii) : ascii :=
  let n := nat_of_ascii c in
  if (65 <=? n)%nat && (n <=? 90)%nat then ascii_of_nat (n + 32) else c.

Fixpoint map_chars (f : ascii -> ascii) (s : string) : string :=
  match s with
  | EmptyString => EmptyString
  | String c rest => String (f c) (map_chars f rest)
  end.

Definition toLowerCase (s : string) : string := map_chars lower s.

(** [replace(/[^a-z0-9]/g, '_')]. *)
Definition underscore (c : ascii) : ascii :=
  let n := nat_of_ascii c in
  if ((97 <=? n)%nat && (n <=? 122)%nat) || ((48 <=? n)%nat && (n <=? 57)%nat)
  then c else "_"%char.

Definition slug (s : string) : string := map_chars underscore (toLowerCase s).

(** A number in a template literal, for the integers the generator draws. *)
Definition decimal (n : Z) : string := NilZero.string_of_int (Z.to_int n).

(** Everything a call of the generator draws or reads from outside.  Each
    index is the value of one [Math.floor(Math.random() * n)]; [now] is the
    value of [new Date()]; [payload] is the object literal given as
    [raw_data], serialised; [megabytes] is the text of
    [(dataVolume / 1024 / 1024).toFixed(2)]. *)
Record Draws := {
  source : Z;
  target : Z;
  vector : Z;
  malwareName : Z;
  amount : Z;
  coin : Z;
  now : Z;
  payload : string;
  megabytes : string
}.

Definition generateIntrusionEvent (d : Draws) : NewEvent :=
  let sourceIP := getRandomElement maliciousIPs (source d) in
  let targetIP := getRandomElement internalIPs (target d) in
  let attackVector := getRandomElement attackVectors (vector d) in
  let attempts := amount d + 1 in
  let severity :=
    if 30 <? attempts then critical
    else if 15 <? attempts then high
    else if 5 <? attempts then medium
    else low in
  {| n_timestamp := now d;
     n_event_type := intrusion;
     n_severity := severity;
     n_source_ip := sourceIP;
     n_destination_ip := Some targetIP;
     n_description :=
       (decimal attempts ++ " failed authentication attempts detected from "
        ++ sourceIP ++ " targeting " ++ targetIP ++ " using " ++ attackVector)%string;
     n_raw_data := payload d;
     n_ai_analysis := None;
     n_confidence_score := None;
     n_status := new;
     n_tags := ["brute_force"; "authentication_failure"; slug attackVector];
     n_embedding := None |}.

Definition generateMalwareEvent (d : Draws) : NewEvent :=
  let name := getRandomElement malwareNames (malwareName d) in
  let sourceIP := getRandomElement internalIPs (source d) in
  let severity := nth (Z.to_nat (coin d)) [critical; high] high in
  {| n_timestamp := now d;
     n_event_type := malware;
     n_severity := severity;
     n_source_ip := sourceIP;
     n_destination_ip := None;
     n_description :=
       ("Malware detected: " ++ name ++ " found on system " ++ sourceIP)%string;
     n_raw_data := payload d;
     n_ai_analysis := None;
     n_confidence_score := None;
     n_status := new;
     n_tags := ["malware"; "file_infection";
                toLowerCase (hd EmptyString (split "."%char name))];
     n_embedding := None |}.

Definition generateNetworkAnomalyEvent (d : Draws) : NewEvent :=
  let sourceIP := getRandomElement internalIPs (source d) in
  let destIP := getRandomElement maliciousIPs (target d) in
  let dataVolume := amount d + 10000 in
  let severity :=
    if 500000 <? dataVolume then high
    else if 100000 <? dataVolume then medium
    else low in
  {| n_timestamp := now d;
     n_event_type := network_anomaly;
     n_severity := severity;
     n_source_ip := sourceIP;
     n_destination_ip := Some destIP;
     n_description :=
       ("Abnormal data transfer detected: " ++ megabytes d ++ "MB transferred from "
        ++ sourceIP ++ " to " ++ destIP)%string;
     n_raw_data := payload d;
     n_ai_analysis := None;
     n_confidence_score := None;
     n_status := new;
     n_tags := ["data_exfiltration"; "network_anomaly"; "high_volume"];
     n_embedding := None |}.

Definition generateDataBreachEvent (d : Draws) : NewEvent :=
  let sourceIP := getRandomElement maliciousIPs (source d) in
  let recordCount := amount d + 100 in
  {| n_timestamp := now d;
     n_event_type := data_breach;
     n_severity := critical;
     n_source_ip := sourceIP;
     n_destination_ip := None;
     n_description :=
       ("Potential data breach detected: " ++ decimal recordCount
        ++ " sensitive records accessed by unauthorized user from " ++ sourceIP)%string;
     n_raw_data := payload d;
     n_ai_analysis := None;
     n_confidence_score := None;
     n_status := new;
     n_tags := ["data_breach"; "sql_injection"; "pii_exposure"; "critical_incident"];
     n_embedding := None |}.

Definition generatePhishingEvent (d : Draws) : NewEvent :=
  let targetIP := getRandomElement internalIPs (target d) in
  let severity := nth (Z.to_nat (coin d)) [medium; high] high in
  {| n_timestamp := now d;
     n_event_type := phishing;
     n_severity := severity;
     n_source_ip := targetIP;
     n_destination_ip := None;
     n_description :=
       ("Phishing attempt detected: Malicious email clicked by user at "
        ++ targetIP)%string;
     n_raw_data := payload d;
     n_ai_analysis := None;
     n_confidence_score := None;
     n_status := new;
     n_tags := ["phishing"; "social_engineering"; "email_threat"];
     n_embedding := None |}.

Definition generateDosAttackEvent (d : Draws) : NewEvent :=
  let sourceIP := getRandomElement maliciousIPs (source d) in
  let targetIP := getRandomElement internalIPs (target d) in
  let requestCount := amount d + 1000 in
  {| n_timestamp := now d;
     n_event_type := dos_attack;
     n_severity := if 5000 <? requestCount then critical else high;
     n_source_ip := sourceIP;
     n_destination_ip := Some targetIP;
     n_description :=
       ("DDoS attack detected: " ++ decimal requestCount
        ++ " requests per second from " ++ sourceIP ++ " targeting " ++ targetIP)%string;
     n_raw_data := payload d;
     n_ai_analysis := None;
     n_confidence_score := None;
     n_status := new;
     n_tags := ["ddos"; "dos_attack"; "service_disruption"];
     n_embedding := None |}.

(** [generateRandomEvent()]: [which] is the index drawn into
    [eventGenerators]. *)
Definition generateRandomEvent (which : Z) (d : Draws) : NewEvent :=
  nth (Z.to_nat which)
    [ generateIntrusionEvent; generateMalwareEvent; generateNetworkAnomalyEvent;
      generateDataBreachEvent; generatePhishingEvent; generateDosAttackEvent ]
    generateDosAttackEvent d.

(** [generateBatchEvents(count)]: one call of [generateRandomEvent] per
    element; the list holds the [count] draws. *)
Definition generateBatchEvents (draws : list (Z * Draws)) : list NewEvent :=
  map (fun x => generateRandomEvent (fst x) (snd x)) draws.

End Generator.

(** ** Notions used to state the properties *)

Import Analyzer Store.

(** The value of the local variable [event] of [addEvent] when it is
    unshifted: the new event with whatever the two enrichment steps set. *)
Definition enriched (JSON_stringify : ThreatAnalysis -> string) (uuid : string)
    (eventData : NewEvent) (analysis : Outcome ThreatAnalysis)
    (vector : Outcome (list float)) : SecurityEvent :=
  let event := withId uuid eventData in
  let event :=
    match analysis with
    | Resolved a =>
        set_confidence_score (set_ai_analysis event (JSON_stringify a))
          (ta_confidence_score a)
    | Rejected => event
    end in
  match vector with
  | Resolved v => set_embedding event v
  | Rejected => event
  end.

(** The milestones of one run of [addEvent], by the way its two awaited
    promises settle. *)
Definition milestones (uuid : string) (analysis vector : bool) : list Action :=
  (AnalysisSettled analysis
     :: (if analysis then [] else [Logged "Error generating AI analysis:"]))
  ++ (EmbeddingSettled vector
        :: (if vector then [] else [Logged "Error generating embedding:"]))
  ++ [Unshifted uuid; Returned uuid].

(** A run in which the caller has the id while an enrichment step is still
    pending: [Returned] comes before some [..Settled] milestone. *)
Definition returns_before_enrichment (t : list Action) : Prop :=
  exists i j uuid b,
    nth_error t i = Some (Returned uuid) /\
    (nth_error t j = Some (AnalysisSettled b) \/
     nth_error t j = Some (EmbeddingSettled b)) /\
    (i < j)%nat.

(** One call of [addEvent] with everything it depends on. *)
Record Call := {
  c_uuid : string;
  c_data : NewEvent;
  c_analysis : Outcome ThreatAnalysis;
  c_vector : Outcome (list float)
}.

(** The store after a call of [addEvent] has run to its end.  Calls that
    overlap reach their unshift one after the other; a sequence of calls is
    listed in that order. *)
Definition ingest (JSON_stringify : ThreatAnalysis -> string)
    (s : MockDataStore) (c : Call) : MockDataStore :=
  snd (fst (addEvent JSON_stringify (c_uuid c) (c_data c) (c_analysis c)
              (c_vector c) s)).

Definition inserted (JSON_stringify : ThreatAnalysis -> string) (c : Call)
    : SecurityEvent :=
  enriched JSON_stringify (c_uuid c) (c_data c) (c_analysis c) (c_vector c).

(** The sum of the values of a [Record<string, number>]. *)
Definition sum_values (o : list (string * Z)) : Z :=
  fold_right (fun entry acc => snd entry + acc) 0 o.

(** The similarity of a stored event to a target embedding, and the events a
    search for [targetEvent] has to return. *)
Definition similarity (target : list float) (event : SecurityEvent) : float :=
  cosineSimilarity target (the_embedding event).

Definition matches (targetEvent : SecurityEvent) (target : list float)
    (threshold : float) (event : SecurityEvent) : bool :=
  has_embedding event
  && negb (String.eqb (id event) (id targetEvent))
  && (threshold <? similarity target event)%float.

(** [a] ranks at least as high as [b]. *)
Definition at_least_as_similar (target : list float) (a b : SecurityEvent) : Prop :=
  (similarity target b <=? similarity target a)%float = true.

(** Sample data for the closed instances below. *)
Definition sampleData (t : EventType) (sev : Severity) : NewEvent :=
  {| n_timestamp := 1700000000000;
     n_event_type := t;
     n_severity := sev;
     n_source_ip := "203.0.113.7";
     n_destination_ip := None;
     n_description := "sample";
     n_raw_data := "{}";
     n_ai_analysis := None;
     n_confidence_score := None;
     n_status := new;
     n_tags := [];
     n_embedding := None |}.

Definition sampleEvent (i : string) (t : EventType) (sev : Severity)
    (v : option (list float)) : SecurityEvent :=
  {| id := i; timestamp := 1700000000000; event_type := t; severity := sev;
     source_ip := "203.0.113.7"; destination_ip := None;
     description := "sample"; raw_data := "{}"; ai_analysis := None;
     confidence_score := None; status := new; tags := []; embedding := v |}.

Definition sampleStore (l : list SecurityEvent) : MockDataStore :=
  {| events := l; isGenerating := false |}.

Definition sampleFrom (i ip : string) : SecurityEvent :=
  {| id := i; timestamp := 1700000000000; event_type := intrusion;
     severity := high; source_ip := ip; destination_ip := None;
     description := "sample"; raw_data := "{}"; ai_analysis := None;
     confidence_score := None; status := new; tags := []; embedding := None |}.

(** The keys of an array of keys, each once, in the order in which they first
    occur. *)
Fixpoint first_occurrences (keys : list string) : list string :=
  match keys with
  | [] => []
  | k :: rest =>
      k :: filter (fun k' => negb (String.eqb k' k)) (first_occurrences rest)
  end.

(** The number of events whose key is [k]. *)
Definition occurrences (key : SecurityEvent -> string) (k : string)
    (l : list SecurityEvent) : Z :=
  count (fun e => String.eqb (key e) k) l.

(** Two collections that differ at most in the status and the analysis of
    their events. *)
Definition same_but_status (l l' : list SecurityEvent) : Prop :=
  Forall2
    (fun e e' =>
       id e' = id e /\ timestamp e' = timestamp e /\
       event_type e' = event_type e /\ severity e' = severity e /\
       source_ip e' = source_ip e /\ destination_ip e' = destination_ip e /\
       description e' = description e /\ raw_data e' = raw_data e /\
       confidence_score e' = confidence_score e /\ tags e' = tags e /\
       embedding e' = embedding e)
    l l'.

(** The sum of the counts of a list of threats. *)
Definition sum_counts (l : list Threat) : Z :=
  fold_right (fun t acc => t_count t + acc) 0 l.

(** What [getTopThreats] reports as type and as severity for the events of a
    category and a severity: the first two parts of the composite key. *)
Definition reported_type (t : EventType) : string :=
  match t with
  | intrusion => "intrusion"
  | malware => "malware"
  | network_anomaly => "network"
  | data_breach => "data"
  | phishing => "phishing"
  | dos_attack => "dos"
  end.

Definition reported_severity (t : EventType) (sev : Severity) : string :=
  match t with
  | intrusion | malware | phishing => Severity_str sev
  | network_anomaly => "anomaly"
  | data_breach => "breach"
  | dos_attack => "attack"
  end.

(** A vector all of whose components are zero (of either sign). *)
Definition zero_vector (v : list float) : Prop :=
  Forall (fun x => is_zero x = true) v.

(** A number that is zero or NaN, on the specification side. *)
Definition zero_or_nan (x : spec_float) : Prop :=
  match x with
  | S754_zero _ | S754_nan => True
  | S754_infinity _ | S754_finite _ _ _ => False
  end.

(** The generation loops that are alive: each is waiting either for its timer
    or for its call of [addEvent]. *)
Definition loops (r : Runtime) : nat :=
  (List.length (timers r) + List.length (inflight r))%nat.

Definition is_stop (what : Step) : bool :=
  match what with Stop => true | _ => false end.

(** The draws of the generator are within the bounds of their
    [Math.floor(Math.random() * n)]. *)
Definition in_range (which : Z) (d : Generator.Draws) : Prop :=
  0 <= which < 6 /\
  0 <= Generator.source d
       < (if (which =? 1) || (which =? 2) then 7 else 8) /\
  0 <= Generator.target d < (if which =? 2 then 8 else 7) /\
  0 <= Generator.vector d < 8 /\
  0 <= Generator.malwareName d < 8 /\
  0 <= Generator.coin d < 2 /\
  0 <= Generator.amount d
       < (if which =? 0 then 50 else if which =? 2 then 1000000 else 10000).

(** The severities that the generator gives to the events of a category. *)
Definition generated_severities (t : EventType) : list Severity :=
  match t with
  | intrusion => [low; medium; high; critical]
  | malware => [critical; high]
  | network_anomaly => [low; medium; high]
  | data_breach => [critical]
  | phishing => [medium; high]
  | dos_attack => [high; critical]
  end.

Definition severity_rank (sev : Severity) : Z :=
  match sev with low => 0 | medium => 1 | high => 2 | critical => 3 end.

(** Case analysis on the comparisons of exponents and mantissas. *)
Ltac cmp_cases :=
  repeat match goal with
  | H : context [Z.compare ?a ?b] |- _ =>
      destruct (Z.compare_spec a b); simpl in H
  | H : context [Pos.compare_cont Eq ?a ?b] |- _ =>
      change (Pos.compare_cont Eq a b) with (Pos.compare a b) in H
  | H : context [Pos.compare ?a ?b] |- _ =>
      destruct (Pos.compare_spec a b); simpl in H
  | |- context [Z.compare ?a ?b] =>
      destruct (Z.compare_spec a b); simpl
  | |- context [Pos.compare_cont Eq ?a ?b] =>
      change (Pos.compare_cont Eq a b) with (Pos.compare a b)
  | |- context [Pos.compare ?a ?b] =>
      destruct (Pos.compare_spec a b); simpl
  end.

(** ** Properties *)

(** *** The fallback table *)

Lemma lookup_intrusion : lookup "intrusion" mockAnalyses = Some mockIntrusion.
Proof. reflexivity. Qed.

(** C4, as stated, fails: the table has no entry of its own for [phishing]
    (nor for [data_breach] and [dos_attack]), so it does not hold one entry per
    category. *)
Lemma mockAnalyses_lacks_categories :
  lookup (EventType_str phishing) mockAnalyses = None /\
  ~ (forall t : EventType, exists a, lookup (EventType_str t) mockAnalyses = Some a).
Proof.
  split; [reflexivity|].
  intros H. destruct (H phishing) as [a Ha]. discriminate Ha.
Qed.

(** C4, amended: the fallback analysis is a function of the category alone,
    read from a fixed table with the three entries intrusion, malware and
    network_anomaly; every other category, and an event without category, gets
    the intrusion entry.  It is what [analyzeSecurityEvent] answers when no key
    is configured and whenever the provider fails. *)
Theorem getMockAnalysis_table :
  map fst mockAnalyses = ["intrusion"; "malware"; "network_anomaly"] /\
  (forall t : EventType,
     getMockAnalysis (Some t) =
       match t with
       | intrusion => mockIntrusion
       | malware => mockMalware
       | network_anomaly => mockNetworkAnomaly
       | data_breach | phishing | dos_attack => mockIntrusion
       end) /\
  getMockAnalysis None = mockIntrusion /\
  (forall c t, analyzeSecurityEvent false c t = Resolved (getMockAnalysis t)) /\
  (forall t,
     analyzeSecurityEvent true CompletionFails t = Resolved (getMockAnalysis t) /\
     analyzeSecurityEvent true CompletionEmpty t = Resolved (getMockAnalysis t) /\
     analyzeSecurityEvent true CompletionUnparsable t = Resolved (getMockAnalysis t)).
Proof.
  split; [reflexivity|].
  split; [intros t; destruct t; reflexivity|].
  split; [reflexivity|].
  split; [intros c t; reflexivity|].
  intros t. repeat split.
Qed.

(** *** Status updates *)

Lemma find_id_none (i : string) (l : list SecurityEvent) :
  ~ In i (map id l) -> find (fun e => String.eqb (id e) i) l = None.
Proof.
  induction l as [|e l IH]; simpl; intros H; [reflexivity|].
  destruct (String.eqb_spec (id e) i) as [E|E].
  - exfalso. apply H. left. exact E.
  - apply IH. intros Hin. apply H. right. exact Hin.
Qed.

Lemma find_id_some (i : string) (l : list SecurityEvent) :
  In i (map id l) -> exists e, find (fun e => String.eqb (id e) i) l = Some e.
Proof.
  induction l as [|e l IH]; simpl; intros H; [contradiction|].
  destruct (String.eqb_spec (id e) i) as [E|E].
  - exists e. reflexivity.
  - destruct H as [H|H]; [contradiction|]. apply IH, H.
Qed.

(** C8: on an id that no stored event has, [updateEventStatus] returns [false]
    and leaves the store as it is; on an id that a stored event has, it
    returns [true]. *)
Theorem updateEventStatus_flag (i : string) (st : Status)
    (aiAnalysis : option string) (s : MockDataStore) :
  (~ In i (map id (events s)) -> updateEventStatus i st aiAnalysis s = (false, s)) /\
  (In i (map id (events s)) -> fst (updateEventStatus i st aiAnalysis s) = true).
Proof.
  unfold updateEventStatus. split; intros H.
  - rewrite (find_id_none _ _ H). reflexivity.
  - destruct (find_id_some _ _ H) as [e He]. rewrite He. reflexivity.
Qed.

Lemma updateEventStatus_flag_witness :
  let s := sampleStore [sampleEvent "e1" malware high None] in
  updateEventStatus "e9" resolved None s = (false, s) /\
  fst (updateEventStatus "e1" resolved None s) = true.
Proof.
  intros s. split.
  - apply (proj1 (updateEventStatus_flag "e9" resolved None s)).
    simpl. intros [H|H]; [discriminate H|exact H].
  - apply (proj2 (updateEventStatus_flag "e1" resolved None s)).
    simpl. left. reflexivity.
Defined.

Lemma mutate_first_split (i : string) (f : SecurityEvent -> SecurityEvent)
    (l : list SecurityEvent) :
  In i (map id l) ->
  exists before e after,
    l = before ++ e :: after /\
    ~ In i (map id before) /\
    id e = i /\
    mutate_first (fun e => String.eqb (id e) i) f l = before ++ f e :: after.
Proof.
  induction l as [|x l IH]; simpl; intros H; [contradiction|].
  destruct (String.eqb_spec (id x) i) as [E|E].
  - exists [], x, l. simpl. repeat split; auto.
  - destruct H as [H|H]; [contradiction|].
    destruct (IH H) as (before & e & after & Hl & Hb & He & Hm).
    exists (x :: before), e, after. simpl. repeat split.
    + rewrite Hl. reflexivity.
    + intros [Hx|Hx]; [contradiction|]. exact (Hb Hx).
    + exact He.
    + rewrite Hm. reflexivity.
Qed.

(** C10: on an id that is stored, [updateEventStatus] touches one event, the
    first with that id: its [status] becomes the new status, its [ai_analysis]
    becomes the analysis passed when one is passed (and is not the empty
    string), and every other field of it, every other event, the order of the
    events and the generation flag stay as they were. *)
Theorem updateEventStatus_frame (i : string) (st : Status)
    (aiAnalysis : option string) (s : MockDataStore) :
  In i (map id (events s)) ->
  exists before e after,
    events s = before ++ e :: after /\
    ~ In i (map id before) /\
    id e = i /\
    events (snd (updateEventStatus i st aiAnalysis s)) =
      before
      ++ {| id := id e;
            timestamp := timestamp e;
            event_type := event_type e;
            severity := severity e;
            source_ip := source_ip e;
            destination_ip := destination_ip e;
            description := description e;
            raw_data := raw_data e;
            ai_analysis :=
              if truthy aiAnalysis then aiAnalysis else ai_analysis e;
            confidence_score := confidence_score e;
            status := st;
            tags := tags e;
            embedding := embedding e |}
      :: after /\
    isGenerating (snd (updateEventStatus i st aiAnalysis s)) = isGenerating s.
Proof.
  intros H. unfold updateEventStatus.
  destruct (find_id_some _ _ H) as [e0 He0]. rewrite He0. simpl.
  destruct (mutate_first_split i (applyUpdate st aiAnalysis) _ H)
    as (before & e & after & Hl & Hb & He & Hm).
  exists before, e, after. repeat split; auto.
  rewrite Hm. f_equal. f_equal.
  unfold applyUpdate. destruct aiAnalysis as [[|c a]|]; reflexivity.
Qed.

Lemma updateEventStatus_frame_witness :
  exists before e after,
    [sampleEvent "e0" phishing low None; sampleEvent "e1" malware high None]
      = before ++ e :: after /\
    events (snd (updateEventStatus "e1" investigating (Some "{}")
                   (sampleStore [sampleEvent "e0" phishing low None;
                                 sampleEvent "e1" malware high None]))) =
      before
      ++ {| id := id e; timestamp := timestamp e; event_type := event_type e;
            severity := severity e; source_ip := source_ip e;
            destination_ip := destination_ip e; description := description e;
            raw_data := raw_data e; ai_analysis := Some "{}";
            confidence_score := confidence_score e; status := investigating;
            tags := tags e; embedding := embedding e |}
      :: after.
Proof.
  destruct (updateEventStatus_frame "e1" investigating (Some "{}")
              (sampleStore [sampleEvent "e0" phishing low None;
                            sampleEvent "e1" malware high None]))
    as (before & e & after & Hl & _ & _ & Hm & _).
  - simpl. right. left. reflexivity.
  - exists before, e, after. split; [exact Hl|exact Hm].
Defined.

(** *** Ingestion *)

Lemma firstn_min_length {A : Type} (n : nat) (l : list A) :
  firstn (Nat.min n (List.length l)) l = firstn n l.
Proof.
  destruct (Nat.le_gt_cases n (List.length l)) as [H|H].
  - rewrite Nat.min_l by exact H. reflexivity.
  - rewrite Nat.min_r by lia. rewrite firstn_all.
    symmetry. apply firstn_all2. lia.
Qed.

Lemma slice_prefix {A : Type} (l : list A) (n : Z) :
  0 <= n -> slice l 0 n = firstn (Z.to_nat n) l.
Proof.
  intros Hn. unfold slice, clamp.
  replace (0 <? 0) with false by reflexivity.
  replace (n <? 0) with false by (symmetry; apply Z.ltb_ge; exact Hn).
  rewrite (Z.min_l 0) by lia. rewrite Z.sub_0_r. simpl skipn.
  rewrite Z2Nat.inj_min, Nat2Z.id. apply firstn_min_length.
Qed.

Lemma firstn_app_firstn {A : Type} (n : nat) (a b : list A) :
  firstn n (a ++ firstn n b) = firstn n (a ++ b).
Proof.
  rewrite !firstn_app, firstn_firstn.
  replace (Nat.min (n - List.length a) n) with (n - List.length a)%nat by lia.
  reflexivity.
Qed.

(** The last synchronous segment of [addEvent]: after the unshift, the array
    is cut back to its first 1000 elements. *)
Lemma trim_events (s : MockDataStore) (l : list SecurityEvent) :
  (if 1000 <? Z.of_nat (List.length l)
   then set_events (set_events s l) (slice l 0 1000)
   else set_events s l) = set_events s (firstn (Z.to_nat 1000) l).
Proof.
  destruct (Z.ltb_spec 1000 (Z.of_nat (List.length l))) as [H|H].
  - rewrite slice_prefix by lia. reflexivity.
  - rewrite firstn_all2 by lia. reflexivity.
Qed.

(** What one run of [addEvent] amounts to. *)
Lemma addEvent_run (J : ThreatAnalysis -> string) (uuid : string)
    (eventData : NewEvent) (analysis : Outcome ThreatAnalysis)
    (vector : Outcome (list float)) (s : MockDataStore) :
  addEvent J uuid eventData analysis vector s =
    (Resolved uuid,
     set_events s
       (firstn (Z.to_nat 1000) (enriched J uuid eventData analysis vector :: events s)),
     milestones uuid (fulfilled analysis) (fulfilled vector)).
Proof.
  pose proof (trim_events s) as T.
  destruct analysis as [a|], vector as [v|];
    unfold addEvent, enriched, milestones, bind, try_catch, await, tell, modify, ret;
    cbn [fulfilled events set_events app fst snd];
    rewrite T; reflexivity.
Qed.

Lemma ingest_events (J : ThreatAnalysis -> string) (s : MockDataStore) (c : Call) :
  events (ingest J s c) = firstn (Z.to_nat 1000) (inserted J c :: events s).
Proof. unfold ingest, inserted. rewrite addEvent_run. reflexivity. Qed.

(** C2: after any sequence of [addEvent] calls (at least one), from any store,
    the store holds at most 1000 events, and they are the first 1000 of all
    events in order of insertion, newest first: the events inserted by the
    calls, then the events that were there before.  What is dropped is
    the tail, the oldest by insertion. *)
Theorem addEvent_keeps_newest_1000 (J : ThreatAnalysis -> string)
    (calls : list Call) (c : Call) (s : MockDataStore) :
  let s' := fold_left (ingest J) (c :: calls) s in
  (List.length (events s') <= 1000)%nat /\
  events s' = firstn 1000 (rev (map (inserted J) (c :: calls)) ++ events s).
Proof.
  change 1000%nat with (Z.to_nat 1000).
  cbv zeta. split.
  - revert c s. induction calls as [|c' calls IH]; intros c s.
    + simpl fold_left. rewrite ingest_events. apply firstn_le_length.
    + change (fold_left (ingest J) (c :: c' :: calls) s)
        with (fold_left (ingest J) (c' :: calls) (ingest J s c)).
      apply IH.
  - revert c s. induction calls as [|c' calls IH]; intros c s.
    + simpl fold_left. rewrite ingest_events. reflexivity.
    + change (fold_left (ingest J) (c :: c' :: calls) s)
        with (fold_left (ingest J) (c' :: calls) (ingest J s c)).
      rewrite IH, ingest_events, firstn_app_firstn.
      f_equal. change (map (inserted J) (c :: c' :: calls))
        with (inserted J c :: map (inserted J) (c' :: calls)).
      change (rev (inserted J c :: map (inserted J) (c' :: calls)))
        with (rev (map (inserted J) (c' :: calls)) ++ [inserted J c]).
      rewrite <- app_assoc. reflexivity.
Qed.

(** *** Statistics *)

Lemma sum_values_increment (key : string) (acc : list (string * Z)) :
  sum_values (increment key acc) = sum_values acc + 1.
Proof.
  induction acc as [|[k n] acc IH]; simpl; [reflexivity|].
  destruct (String.eqb k key); simpl.
  - unfold sum_values. simpl. lia.
  - unfold sum_values in *. simpl. rewrite IH. lia.
Qed.

Lemma sum_values_countBy (key : SecurityEvent -> string) (l : list SecurityEvent) :
  sum_values (countBy key l) = Z.of_nat (List.length l).
Proof.
  unfold countBy.
  assert (G : forall acc,
            sum_values (fold_left (fun acc event => increment (key event) acc) l acc)
            = sum_values acc + Z.of_nat (List.length l)).
  { induction l as [|e l IH]; intros acc.
    - simpl. lia.
    - simpl fold_left. rewrite IH, sum_values_increment.
      change (List.length (e :: l)) with (S (List.length l)). lia. }
  rewrite G. reflexivity.
Qed.

(** C7: in every state of the store, [getStats()] reports as [totalEvents]
    the number of stored events, and the values of [eventsBySeverity], and
    those of [eventsByStatus], add up to [totalEvents]. *)
Theorem getStats_totals (startOfDay endOfDay : Z -> Z) (isoDate : Z -> string)
    (now : Z) (s : MockDataStore) :
  let stats := getStats startOfDay endOfDay isoDate now s in
  totalEvents stats = Z.of_nat (List.length (events s)) /\
  sum_values (eventsBySeverity stats) = totalEvents stats /\
  sum_values (eventsByStatus stats) = totalEvents stats.
Proof.
  cbv zeta. unfold getStats.
  cbn [totalEvents eventsBySeverity eventsByStatus].
  repeat split; apply sum_values_countBy.
Qed.

(** *** When [addEvent] returns *)

(** With the analyzer of the repository both awaited promises are fulfilled,
    whatever the provider does. *)
Lemma enrichment_fulfilled (api_key : bool) (c : Completion)
    (t : option EventType) (response : Outcome (list float)) (random : list float) :
  fulfilled (analyzeSecurityEvent api_key c t) = true /\
  fulfilled (generateEmbedding api_key response random) = true.
Proof.
  split.
  - destruct api_key, c; reflexivity.
  - destruct api_key, response; reflexivity.
Qed.

Lemma milestones_return_last (uuid : string) (a v : bool) :
  ~ returns_before_enrichment (milestones uuid a v).
Proof.
  intros (i & j & u & b & Hi & Hj & Hlt).
  destruct a, v; cbn in Hi, Hj;
    repeat (destruct i as [|i]; cbn in Hi; try discriminate Hi);
    repeat (destruct j as [|j]; cbn in Hj;
            try lia; try (destruct Hj as [Hj|Hj]; discriminate Hj)).
Qed.

Lemma id_enriched (J : ThreatAnalysis -> string) (uuid : string)
    (eventData : NewEvent) (analysis : Outcome ThreatAnalysis)
    (vector : Outcome (list float)) :
  id (enriched J uuid eventData analysis vector) = uuid.
Proof. destruct analysis, vector; reflexivity. Qed.

(** C1, as stated, fails: in a run in which both enrichment steps succeed,
    the caller gets the id only after both have settled. *)
Lemma addEvent_returns_last_example :
  snd (addEvent threat_type "e1" (sampleData malware high)
         (Resolved mockMalware) (Resolved [1%float; 0%float]) empty)
    = [AnalysisSettled true; EmbeddingSettled true; Unshifted "e1"; Returned "e1"]
  /\ ~ returns_before_enrichment
        (snd (addEvent threat_type "e1" (sampleData malware high)
                (Resolved mockMalware) (Resolved [1%float; 0%float]) empty)).
Proof.
  rewrite addEvent_run. split; [reflexivity|].
  apply milestones_return_last.
Qed.

(** C1, amended: for every partial event, [addEvent] awaits the analysis, then
    the embedding, inserts the event with what they produced, and only then
    returns; it never returns before an enrichment step has settled.  However
    the two steps settle, also when they fail, the call is fulfilled with
    the id, and that id is the id of the event now at the head of the store,
    which [getEventById] finds. *)
Theorem addEvent_returns_after_enrichment (J : ThreatAnalysis -> string)
    (uuid : string) (eventData : NewEvent) (analysis : Outcome ThreatAnalysis)
    (vector : Outcome (list float)) (s : MockDataStore) :
  let run := addEvent J uuid eventData analysis vector s in
  let event := enriched J uuid eventData analysis vector in
  fst (fst run) = Resolved uuid /\
  snd run = milestones uuid (fulfilled analysis) (fulfilled vector) /\
  ~ returns_before_enrichment (snd run) /\
  (exists before,
     snd run = before ++ [Unshifted uuid; Returned uuid] /\
     In (AnalysisSettled (fulfilled analysis)) before /\
     In (EmbeddingSettled (fulfilled vector)) before) /\
  hd_error (events (snd (fst run))) = Some event /\
  id event = uuid /\
  getEventById uuid (snd (fst run)) = Some event.
Proof.
  cbv zeta. rewrite addEvent_run. cbn [fst snd].
  change (Z.to_nat 1000) with (S (Z.to_nat 999)).
  cbn [events set_events firstn hd_error].
  split; [reflexivity|]. split; [reflexivity|].
  split; [apply milestones_return_last|].
  split.
  - unfold milestones. rewrite app_assoc.
    eexists. split; [reflexivity|].
    split; [left; reflexivity|].
    apply in_or_app. right. left. reflexivity.
  - split; [reflexivity|]. split; [apply id_enriched|].
    unfold getEventById. cbn [events set_events find].
    rewrite id_enriched, String.eqb_refl. reflexivity.
Qed.

(** *** Top threats and cosine similarity at their failing inputs *)

(** C6 at a failing input: one stored [network_anomaly] event of severity
    [high] is reported with type [network] and severity [anomaly], neither of
    which is a category or a severity. *)
Theorem getTopThreats_splits_category :
  getTopThreats 5 (sampleStore [sampleEvent "e1" network_anomaly high None]) =
    [ {| t_type := Some "network"; t_count := 1; t_severity := Some "anomaly" |} ].
Proof. reflexivity. Qed.

(** C3 at a failing input: against a vector of magnitude zero the function
    returns NaN, not 0. *)
Theorem cosineSimilarity_zero_vector_nan :
  is_nan (cosineSimilarity [0%float; 0%float] [1%float; 2%float]) = true /\
  (cosineSimilarity [0%float; 0%float] [1%float; 2%float] =? 0)%float = false.
Proof. split; reflexivity. Qed.

(** Rounding alone takes the result out of [-1, 1]. *)
Lemma cosineSimilarity_above_one :
  (1 <? cosineSimilarity [1.5%float; 1%float] [1.5%float; 1%float])%float = true.
Proof. reflexivity. Qed.

(** *** Continuous generation *)

Lemma generateEvent_stopped (ms : Z) (g : Outcome NewEvent) (r : Runtime) :
  isGenerating (store r) = false -> generateEvent ms g r = r.
Proof. intros H. unfold generateEvent. rewrite H. reflexivity. Qed.

(** A turn that is not a call of start, taken while the flag is down, leaves
    the flag down and issues no [addEvent]. *)
Lemma step_while_stopped (J : ThreatAnalysis -> string) (r : Runtime) (what : Step) :
  is_start what = false ->
  isGenerating (store r) = false ->
  isGenerating (store (step J r what)) = false /\
  issued (step J r what) = issued r.
Proof.
  intros Hw Hr. destruct what as [ms g| |k g|k uuid a v]; simpl.
  - discriminate Hw.
  - split; reflexivity.
  - destruct (nth_error (timers r) k) as [ms|]; [|split; [exact Hr|reflexivity]].
    rewrite generateEvent_stopped by exact Hr. split; [exact Hr|reflexivity].
  - destruct (nth_error (inflight r) k) as [[ms ev]|]; [|split; [exact Hr|reflexivity]].
    rewrite addEvent_run. simpl. split; [exact Hr|reflexivity].
Qed.

Lemma run_while_stopped (J : ThreatAnalysis -> string) (steps : list Step) :
  forall r : Runtime,
    forallb (fun what => negb (is_start what)) steps = true ->
    isGenerating (store r) = false ->
    isGenerating (store (run J r steps)) = false /\
    issued (run J r steps) = issued r.
Proof.
  induction steps as [|what steps IH]; intros r Hs Hr.
  - split; [exact Hr|reflexivity].
  - simpl in Hs. apply andb_true_iff in Hs. destruct Hs as [Hw Hs].
    apply negb_true_iff in Hw.
    destruct (step_while_stopped J r what Hw Hr) as [H1 H2].
    destruct (IH (step J r what) Hs H1) as [H3 H4].
    unfold run in *. simpl. split; [exact H3|]. rewrite H4. exact H2.
Qed.

(** C9: a call of start while the loop is running changes nothing, so neither
    the number of running loops nor their intervals; a call of stop is defined
    in every state, changes nothing when the loop is not running, and a second
    stop changes nothing after the first; and after a stop, whatever timers
    expire and pending calls settle, as long as start is not called again, no
    further [addEvent] is issued and the flag stays down. *)
Theorem generation_start_stop (J : ThreatAnalysis -> string) (r : Runtime)
    (intervalMs : Z) (generated : Outcome NewEvent) (steps : list Step) :
  (isGenerating (store r) = true -> step J r (Start intervalMs generated) = r) /\
  (isGenerating (store r) = false -> step J r Stop = r) /\
  step J (step J r Stop) Stop = step J r Stop /\
  (forallb (fun what => negb (is_start what)) steps = true ->
   issued (run J (step J r Stop) steps) = issued r /\
   isGenerating (store (run J (step J r Stop) steps)) = false).
Proof.
  split; [|split; [|split]].
  - intros H. simpl. rewrite H. reflexivity.
  - intros H. destruct r as [[ev g] t f n]. simpl in *. rewrite H. reflexivity.
  - reflexivity.
  - intros Hs.
    destruct (run_while_stopped J steps (step J r Stop) Hs eq_refl) as [H1 H2].
    split; [exact H2|exact H1].
Qed.

Lemma generation_start_stop_witness :
  let running :=
    step threat_type (idle empty) (Start 5000 (Resolved (sampleData malware high))) in
  let steps :=
    [ Settle 0 "e1" (Resolved mockMalware) (Resolved [1%float; 0%float]);
      Fire 0 (Resolved (sampleData phishing low));
      Stop ] in
  step threat_type running (Start 100 (Resolved (sampleData phishing low))) = running /\
  step threat_type (idle empty) Stop = idle empty /\
  issued (run threat_type (step threat_type running Stop) steps) = 1%nat.
Proof.
  intros running steps.
  split; [|split].
  - apply (proj1 (generation_start_stop threat_type running 100
                    (Resolved (sampleData phishing low)) [])).
    reflexivity.
  - apply (proj1 (proj2 (generation_start_stop threat_type (idle empty) 0
                           Rejected []))).
    reflexivity.
  - apply (proj1 (proj2 (proj2 (proj2
             (generation_start_stop threat_type running 0 Rejected steps)))
             eq_refl)).
Defined.

(** *** Comparisons of binary64 numbers

    The comparator of the similarity search subtracts two numbers and the sort
    looks at the sign of the difference.  The lemmas below relate that sign to
    the order of the two numbers, from the specification of the binary64
    operations. *)

Lemma digits2_pos_bounds (m : positive) :
  2 ^ (Zpos (digits2_pos m) - 1) <= Zpos m < 2 ^ Zpos (digits2_pos m).
Proof.
  induction m as [p IH|p IH|]; cbn [digits2_pos].
  - rewrite Pos2Z.inj_succ.
    replace (Z.succ (Zpos (digits2_pos p)) - 1) with (Z.succ (Zpos (digits2_pos p) - 1)) by lia.
    rewrite !Z.pow_succ_r by lia. lia.
  - rewrite Pos2Z.inj_succ.
    replace (Z.succ (Zpos (digits2_pos p)) - 1) with (Z.succ (Zpos (digits2_pos p) - 1)) by lia.
    rewrite !Z.pow_succ_r by lia. lia.
  - simpl. lia.
Qed.

Lemma iter_pos_iter {A : Type} (f : A -> A) (n : positive) :
  forall x, iter_pos f n x = Pos.iter f x n.
Proof.
  induction n as [n IH|n IH|]; intros x; simpl.
  - rewrite !IH, !Pos.iter_swap. reflexivity.
  - rewrite !IH. reflexivity.
  - reflexivity.
Qed.

Lemma shr_m_shr_1 (mrs : shr_record) :
  0 <= shr_m mrs -> shr_m (shr_1 mrs) = shr_m mrs / 2.
Proof.
  destruct mrs as [m r s]. cbn [shr_m]. intros H.
  destruct m as [|[p|p|]|p]; cbn [shr_1 shr_m]; try lia.
  - reflexivity.
  - apply Z.div_unique with (r := 1); lia.
  - apply Z.div_unique with (r := 0); lia.
  - reflexivity.
Qed.

Lemma shr_m_iter (n : positive) (mrs : shr_record) :
  0 <= shr_m mrs ->
  shr_m (iter_pos shr_1 n mrs) = shr_m mrs / 2 ^ Zpos n.
Proof.
  intros H. rewrite iter_pos_iter.
  induction n as [|n IH] using Pos.peano_ind.
  - simpl Pos.iter. rewrite shr_m_shr_1 by exact H. reflexivity.
  - rewrite Pos.iter_succ, shr_m_shr_1.
    + rewrite IH, Pos2Z.inj_succ, Z.pow_succ_r by lia.
      rewrite Z.div_div by lia. f_equal. lia.
    + rewrite IH. apply Z.div_pos; lia.
Qed.

Lemma fexp_eq (x : Z) : fexp prec emax x = Z.max (x - 53) (-1074).
Proof. reflexivity. Qed.

Lemma shr_m_of_loc (m : Z) (l : location) : shr_m (shr_record_of_loc m l) = m.
Proof. destruct l as [|[| |]]; reflexivity. Qed.

Lemma shr_fexp_pos (m e : Z) (l : location) :
  0 < m -> -1074 <= e ->
  0 < shr_m (fst (shr_fexp prec emax m e l)) /\
  -1074 <= snd (shr_fexp prec emax m e l).
Proof.
  intros Hm He. unfold shr_fexp, shr. rewrite fexp_eq.
  destruct m as [|p|p]; try lia. cbn [Zdigits2].
  pose proof (digits2_pos_bounds p) as [Hlo Hhi].
  set (d := Zpos (digits2_pos p)) in *.
  destruct (Z.max (d + e - 53) (-1074) - e) as [|q|q] eqn:En; cbn [fst snd].
  - rewrite shr_m_of_loc. lia.
  - rewrite shr_m_iter by (rewrite shr_m_of_loc; lia).
    rewrite shr_m_of_loc. split; [|lia].
    assert (Hq : Zpos q = d - 53) by lia.
    apply Z.div_str_pos. split; [apply Z.pow_pos_nonneg; lia|].
    apply Z.le_trans with (2 ^ (d - 1)); [|exact Hlo].
    apply Z.pow_le_mono_r; lia.
  - rewrite shr_m_of_loc. lia.
Qed.

Lemma round_nearest_even_ge (m : Z) (l : location) : m <= round_nearest_even m l.
Proof.
  destruct l as [|[| |]]; simpl; try lia. destruct (Z.even m); lia.
Qed.

Lemma binary_round_aux_pos (s : bool) (m e : Z) (l : location) :
  0 < m -> -1074 <= e ->
  (exists m' e', binary_round_aux prec emax s m e l = S754_finite s m' e') \/
  binary_round_aux prec emax s m e l = S754_infinity s.
Proof.
  intros Hm He. unfold binary_round_aux.
  destruct (shr_fexp_pos m e l Hm He) as [H1 H2].
  destruct (shr_fexp prec emax m e l) as [mrs' e'] eqn:E1. cbn [fst snd] in H1, H2.
  pose proof (round_nearest_even_ge (shr_m mrs') (loc_of_shr_record mrs')) as Hr.
  destruct (shr_fexp_pos (round_nearest_even (shr_m mrs') (loc_of_shr_record mrs'))
              e' loc_Exact ltac:(lia) H2) as [H3 H4].
  destruct (shr_fexp prec emax _ e' loc_Exact) as [mrs'' e''] eqn:E2.
  cbn [fst snd] in H3, H4.
  destruct (shr_m mrs'') as [|p|p]; try lia.
  destruct (e'' <=? emax - prec); [left; eauto|right; reflexivity].
Qed.

Lemma binary_round_aux_sign (s : bool) (m e : Z) (l : location) :
  SFltb (S754_zero false) (binary_round_aux prec emax s m e l) = true -> s = false.
Proof.
  unfold binary_round_aux.
  destruct (shr_fexp prec emax m e l) as [mrs' e'].
  destruct (shr_fexp prec emax _ e' loc_Exact) as [mrs'' e''].
  destruct (shr_m mrs'') as [|p|p]; [| |discriminate].
  - discriminate.
  - destruct (e'' <=? emax - prec); destruct s; simpl; intros H;
      try discriminate H; reflexivity.
Qed.

Lemma pos_iter_xO (m d : positive) :
  Zpos (Pos.iter xO m d) = Zpos m * 2 ^ Zpos d.
Proof.
  induction d as [|d IH] using Pos.peano_ind.
  - simpl. lia.
  - rewrite Pos.iter_succ, Pos2Z.inj_xO, IH, Pos2Z.inj_succ, Z.pow_succ_r by lia. lia.
Qed.

Lemma shl_align_value (m : positive) (e e' : Z) :
  e' <= e -> Zpos (fst (shl_align m e e')) = Zpos m * 2 ^ (e - e').
Proof.
  intros H. unfold shl_align.
  destruct (e' - e) as [|d|d] eqn:E; cbn [fst]; try lia.
  - replace (e - e') with 0 by lia. lia.
  - rewrite pos_iter_xO. f_equal. f_equal. lia.
Qed.

Lemma shl_align_exp (m : positive) (e e' : Z) :
  -1074 <= e -> -1074 <= e' -> -1074 <= snd (shl_align m e e').
Proof.
  intros H H'. unfold shl_align. destruct (e' - e); cbn [snd]; lia.
Qed.

Lemma binary_round_pos (s : bool) (m : positive) (e : Z) :
  -1074 <= e ->
  (exists m' e', binary_round prec emax s m e = S754_finite s m' e') \/
  binary_round prec emax s m e = S754_infinity s.
Proof.
  intros He. unfold binary_round.
  pose proof (shl_align_exp m e (fexp prec emax (Zpos (digits2_pos m) + e)) He) as H.
  destruct (shl_align m e _) as [mz ez]. cbn [snd] in H.
  apply binary_round_aux_pos; [lia|].
  apply H. rewrite fexp_eq. lia.
Qed.

Lemma binary_round_sign (s : bool) (m : positive) (e : Z) :
  SFltb (S754_zero false) (binary_round prec emax s m e) = true -> s = false.
Proof.
  unfold binary_round. destruct (shl_align m e _) as [mz ez].
  apply binary_round_aux_sign.
Qed.

(** The sign of a normalised integer is the sign of the integer. *)
Lemma binary_normalize_positive (m e : Z) :
  -1074 <= e ->
  SFltb (S754_zero false) (binary_normalize prec emax m e false) = (0 <? m).
Proof.
  intros He. destruct m as [|p|p]; cbn [binary_normalize].
  - reflexivity.
  - destruct (binary_round_pos false p e He) as [(m' & e' & ->)| ->]; reflexivity.
  - destruct (SFltb _ (binary_round prec emax true p e)) eqn:E; [|reflexivity].
    apply binary_round_sign in E. discriminate E.
Qed.

Lemma bounded_facts (m : positive) (e : Z) :
  bounded prec emax m e = true ->
  -1074 <= e /\ Zpos (digits2_pos m) <= 53 /\
  (-1074 < e -> Zpos (digits2_pos m) = 53).
Proof.
  unfold bounded, canonical_mantissa. intros H.
  apply andb_true_iff in H. destruct H as [H _].
  apply Z.eqb_eq in H. rewrite fexp_eq in H. lia.
Qed.

Lemma aligned_lt (m1 m2 : positive) (e1 e2 : Z) :
  bounded prec emax m1 e1 = true -> bounded prec emax m2 e2 = true ->
  e1 < e2 -> Zpos m1 < Zpos m2 * 2 ^ (e2 - e1).
Proof.
  intros B1 B2 H.
  destruct (bounded_facts _ _ B1) as (E1 & D1 & _).
  destruct (bounded_facts _ _ B2) as (_ & _ & D2).
  pose proof (digits2_pos_bounds m1) as [_ U1].
  pose proof (digits2_pos_bounds m2) as [L2 _].
  rewrite D2 in L2 by lia.
  assert (P1 : 2 ^ Zpos (digits2_pos m1) <= 2 ^ 53)
    by (apply Z.pow_le_mono_r; lia).
  assert (P2 : 2 ^ 1 <= 2 ^ (e2 - e1)) by (apply Z.pow_le_mono_r; lia).
  change (2 ^ 1) with 2 in P2. change (2 ^ (53 - 1)) with 4503599627370496 in L2.
  change (2 ^ 53) with 9007199254740992 in P1.
  nia.
Qed.

Lemma SFsub_positive (x y : spec_float) :
  valid_binary x = true -> valid_binary y = true ->
  SFltb (S754_zero false) (SF64sub y x) = SFltb x y.
Proof.
  intros Vx Vy.
  destruct x as [sx|sx| |sx mx ex], y as [sy|sy| |sy my ey];
    try (destruct sx; reflexivity); try (destruct sy; reflexivity);
    try (destruct sx, sy; reflexivity); try reflexivity.
  cbn [valid_binary] in Vx, Vy.
  destruct (bounded_facts _ _ Vx) as (Ex & _ & _).
  destruct (bounded_facts _ _ Vy) as (Ey & _ & _).
  unfold SF64sub, SFsub.
  rewrite binary_normalize_positive by lia.
  rewrite !shl_align_value by lia.
  unfold SFltb. cbn [SFcompare].
  destruct (Z.compare_spec ex ey) as [E|E|E].
  - subst ey. rewrite Z.min_id, Z.sub_diag. change (2 ^ 0) with 1. rewrite !Z.mul_1_r.
    change (Pos.compare_cont Eq mx my) with (Pos.compare mx my).
    destruct (Pos.compare_spec mx my) as [M|M|M]; destruct sx, sy; cbn [cond_Zopp CompOpp];
      try subst; first [apply Z.ltb_lt; lia | apply Z.ltb_ge; lia].
  - pose proof (aligned_lt _ _ _ _ Vx Vy E) as L.
    rewrite Z.min_r by lia. rewrite Z.sub_diag. change (2 ^ 0) with 1. rewrite Z.mul_1_r.
    destruct sx, sy; cbn [cond_Zopp];
      first [apply Z.ltb_lt; lia | apply Z.ltb_ge; lia].
  - pose proof (aligned_lt _ _ _ _ Vy Vx E) as L.
    rewrite Z.min_l by lia. rewrite Z.sub_diag. change (2 ^ 0) with 1. rewrite Z.mul_1_r.
    destruct sx, sy; cbn [cond_Zopp];
      first [apply Z.ltb_lt; lia | apply Z.ltb_ge; lia].
Qed.


Lemma Prim2SF_zero : Prim2SF 0%float = S754_zero false.
Proof. reflexivity. Qed.

Lemma sub_positive (a b : float) : (0 <? b - a)%float = (a <? b)%float.
Proof.
  rewrite !ltb_spec, sub_spec, Prim2SF_zero.
  apply SFsub_positive; apply Prim2SF_valid.
Qed.

Lemma ltb_leb (a b : float) : (a <? b)%float = true -> (a <=? b)%float = true.
Proof.
  rewrite ltb_spec, leb_spec. unfold SFltb, SFleb.
  destruct (SFcompare _ _) as [[| |]|]; intros H; try discriminate H; reflexivity.
Qed.
Lemma SFcompare_antisym (x y : spec_float) (c : comparison) :
  SFcompare x y = Some c -> SFcompare y x = Some (CompOpp c).
Proof.
  destruct x as [sx|sx| |sx mx ex], y as [sy|sy| |sy my ey]; simpl;
    intros H; try discriminate H;
    try (injection H as <-); try (destruct sx; reflexivity);
    try (destruct sy; reflexivity); try (destruct sx, sy; reflexivity).
  destruct sx, sy; try reflexivity; f_equal;
    rewrite (Z.compare_antisym ex ey);
    destruct (ex ?= ey); simpl; try reflexivity;
    change (Pos.compare_cont Eq my mx) with (Pos.compare my mx);
    change (Pos.compare_cont Eq mx my) with (Pos.compare mx my);
    rewrite (Pos.compare_antisym mx my); destruct (Pos.compare mx my); reflexivity.
Qed.

Lemma SFleb_trans (x y z : spec_float) :
  SFleb x y = true -> SFleb y z = true -> SFleb x z = true.
Proof.
  unfold SFleb.
  destruct x as [sx|sx| |sx mx ex], y as [sy|sy| |sy my ey], z as [sz|sz| |sz mz ez];
    simpl; intros H1 H2; try discriminate; try reflexivity;
    try (destruct sx; try discriminate; try reflexivity);
    try (destruct sy; try discriminate; try reflexivity);
    try (destruct sz; try discriminate; try reflexivity);
    cmp_cases; subst; try discriminate; try reflexivity; try lia.
Qed.

Lemma leb_trans (a b c : float) :
  (a <=? b)%float = true -> (b <=? c)%float = true -> (a <=? c)%float = true.
Proof. rewrite !leb_spec. apply SFleb_trans. Qed.

(** Two numbers above a common bound compare one way or the other. *)
Lemma not_ltb_leb (t a b : float) :
  (t <? a)%float = true -> (t <? b)%float = true ->
  (a <? b)%float = false -> (b <=? a)%float = true.
Proof.
  rewrite !ltb_spec, leb_spec. unfold SFltb, SFleb.
  destruct (SFcompare (Prim2SF a) (Prim2SF b)) as [c|] eqn:E.
  - rewrite (SFcompare_antisym _ _ _ E). destruct c; intros _ _ H; try discriminate H; reflexivity.
  - destruct (Prim2SF t), (Prim2SF a), (Prim2SF b); simpl in *; try discriminate;
      intros H1 H2; try discriminate H1; try discriminate H2.
Qed.

(** *** The stable sort *)

Lemma insert_perm {A : Type} (after : A -> A -> bool) (x : A) (l : list A) :
  Permutation (insert after x l) (x :: l).
Proof.
  induction l as [|y l IH]; simpl; [apply Permutation_refl|].
  destruct (after x y); [|apply Permutation_refl].
  apply perm_trans with (y :: x :: l); [apply perm_skip, IH|apply perm_swap].
Qed.

Lemma sort_perm {A : Type} (after : A -> A -> bool) (l : list A) :
  Permutation (sort after l) l.
Proof.
  induction l as [|x l IH]; simpl; [apply perm_nil|].
  apply perm_trans with (x :: sort after l); [apply insert_perm|apply perm_skip, IH].
Qed.

Lemma insert_map {A B : Type} (g : A -> B) (after : B -> B -> bool) (x : A)
    (l : list A) :
  insert after (g x) (map g l) =
  map g (insert (fun a b => after (g a) (g b)) x l).
Proof.
  induction l as [|y l IH]; simpl; [reflexivity|].
  destruct (after (g x) (g y)); simpl; [rewrite IH|]; reflexivity.
Qed.

Lemma sort_map {A B : Type} (g : A -> B) (after : B -> B -> bool) (l : list A) :
  sort after (map g l) = map g (sort (fun a b => after (g a) (g b)) l).
Proof.
  induction l as [|x l IH]; simpl; [reflexivity|].
  rewrite IH. apply insert_map.
Qed.

Lemma Forall_insert {A : Type} (Q : A -> Prop) (after : A -> A -> bool) (x : A)
    (l : list A) :
  Q x -> Forall Q l -> Forall Q (insert after x l).
Proof.
  intros Hx Hl. apply (Permutation_Forall (x := x :: l)).
  - apply Permutation_sym, insert_perm.
  - constructor; assumption.
Qed.

Section SortSorted.

Variable A : Type.
Variable after : A -> A -> bool.
Variable R : A -> A -> Prop.
Variable P : A -> Prop.

Hypothesis after_true : forall x y, P x -> P y -> after x y = true -> R y x.
Hypothesis after_false : forall x y, P x -> P y -> after x y = false -> R x y.
Hypothesis R_trans : forall x y z, R x y -> R y z -> R x z.

Lemma insert_sorted (x : A) (l : list A) :
  P x -> Forall P l -> StronglySorted R l -> StronglySorted R (insert after x l).
Proof.
  intros Px. induction l as [|y l IH]; intros Pl Sl; simpl.
  - constructor; constructor.
  - inversion Pl as [|? ? Py Pl']; subst.
    inversion Sl as [|? ? Sl' Hy]; subst.
    destruct (after x y) eqn:E.
    + constructor; [apply IH; assumption|].
      apply Forall_insert; [|exact Hy].
      apply after_true; assumption.
    + constructor; [exact Sl|].
      assert (Rxy : R x y) by (apply after_false; assumption).
      constructor; [exact Rxy|].
      apply (Forall_impl (P := R y)); [|exact Hy].
      intros z Hz. exact (R_trans _ _ _ Rxy Hz).
Qed.

Lemma sort_sorted (l : list A) :
  Forall P l -> StronglySorted R (sort after l).
Proof.
  induction l as [|x l IH]; intros Pl; simpl; [constructor|].
  inversion Pl as [|? ? Px Pl']; subst.
  apply insert_sorted; [exact Px| |apply IH; exact Pl'].
  apply (Permutation_Forall (x := l)); [apply Permutation_sym, sort_perm|exact Pl'].
Qed.

End SortSorted.

Lemma filter_andb {A : Type} (p q : A -> bool) (l : list A) :
  filter q (filter p l) = filter (fun x => p x && q x) l.
Proof.
  induction l as [|x l IH]; simpl; [reflexivity|].
  destruct (p x); simpl; [destruct (q x)|]; rewrite IH; reflexivity.
Qed.

Lemma filter_of_map {A B : Type} (g : A -> B) (p : B -> bool) (l : list A) :
  filter p (map g l) = map g (filter (fun x => p (g x)) l).
Proof.
  induction l as [|x l IH]; simpl; [reflexivity|].
  destruct (p (g x)); simpl; rewrite IH; reflexivity.
Qed.

(** *** Similarity search *)

(** The search, for a target with an embedding and a limit that is a count:
    the matching events, sorted, cut to the first [limit]. *)
Lemma searchSimilarEvents_eq (targetEvent : SecurityEvent) (target : list float)
    (threshold : float) (limit : Z) (s : MockDataStore) :
  embedding targetEvent = Some target ->
  0 <= limit ->
  searchSimilarEvents targetEvent threshold limit s =
    firstn (Z.to_nat limit)
      (sort (fun a b => (0 <? similarity target b - similarity target a)%float)
         (filter (matches targetEvent target threshold) (events s))).
Proof.
  intros Ht Hl. unfold searchSimilarEvents. rewrite Ht.
  rewrite slice_prefix by exact Hl.
  rewrite filter_of_map, filter_andb. cbn [snd].
  unfold less_similar.
  rewrite (sort_map (fun event => (event, cosineSimilarity target (the_embedding event)))
             (fun a b => (0 <? snd b - snd a)%float)).
  cbn [snd]. rewrite firstn_map, map_map. cbn [fst]. rewrite map_id.
  reflexivity.
Qed.

(** C5, as stated for every limit, fails: [slice(0, limit)] counts a limit
    below zero from the end of the ranking.  Three stored events match the
    target here, and a search with limit [-1] returns the first two of them,
    which is not at most [limit] events. *)
Lemma searchSimilarEvents_negative_limit_example :
  let near := sampleEvent "e2" malware high (Some [1%float; 1%float]) in
  let same := sampleEvent "e3" phishing low (Some [2%float; 0%float]) in
  let close := sampleEvent "e4" intrusion low (Some [3%float; 1%float]) in
  let targetEvent := sampleEvent "e1" malware high (Some [1%float; 0%float]) in
  let s := sampleStore [near; targetEvent; close; same] in
  searchSimilarEvents targetEvent 0.5%float 10 s = [same; close; near] /\
  searchSimilarEvents targetEvent 0.5%float (-1) s = [same; close] /\
  ~ Z.of_nat (List.length (searchSimilarEvents targetEvent 0.5%float (-1) s))
    <= -1.
Proof.
  cbv zeta. split; [vm_compute; reflexivity|].
  split; [vm_compute; reflexivity|].
  vm_compute. intros H. apply H. reflexivity.
Qed.

(** C5, amended: a search for a target without embedding returns nothing.  For
    a target with an embedding and a limit that is not negative, the result
    is the first [limit] elements of a ranking that holds exactly the stored events
    that have an embedding, whose id is not the target's, and whose cosine
    similarity to the target is strictly greater than the threshold, each as
    often as it is stored, ordered by similarity, highest first; so it has at
    most [limit] elements. *)
Theorem searchSimilarEvents_ranked (targetEvent : SecurityEvent)
    (threshold : float) (limit : Z) (s : MockDataStore) :
  (embedding targetEvent = None ->
   searchSimilarEvents targetEvent threshold limit s = []) /\
  (forall target,
     embedding targetEvent = Some target ->
     0 <= limit ->
     exists ranked,
       Permutation ranked
         (filter (matches targetEvent target threshold) (events s)) /\
       StronglySorted (at_least_as_similar target) ranked /\
       searchSimilarEvents targetEvent threshold limit s =
         firstn (Z.to_nat limit) ranked /\
       Z.of_nat (List.length (searchSimilarEvents targetEvent threshold limit s))
         <= limit).
Proof.
  split.
  - intros H. unfold searchSimilarEvents. rewrite H. reflexivity.
  - intros target Ht Hl.
    rewrite (searchSimilarEvents_eq _ _ _ _ _ Ht Hl).
    eexists. split; [apply sort_perm|]. split; [|split; [reflexivity|]].
    + apply (sort_sorted _ _ (at_least_as_similar target)
               (fun e => (threshold <? similarity target e)%float = true)).
      * intros x y _ _ H. unfold at_least_as_similar.
        rewrite sub_positive in H. apply ltb_leb, H.
      * intros x y Px Py H. unfold at_least_as_similar.
        rewrite sub_positive in H. exact (not_ltb_leb _ _ _ Px Py H).
      * intros x y z H1 H2. unfold at_least_as_similar in *.
        exact (leb_trans _ _ _ H2 H1).
      * apply Forall_forall. intros e He. apply filter_In in He.
        destruct He as [_ He]. unfold matches in He.
        apply andb_true_iff in He. exact (proj2 He).
    + pose proof (firstn_le_length (Z.to_nat limit)
                    (sort (fun a b => (0 <? similarity target b - similarity target a)%float)
                       (filter (matches targetEvent target threshold) (events s)))).
      lia.
Qed.

Lemma searchSimilarEvents_ranked_witness :
  let near := sampleEvent "e2" malware high (Some [1%float; 1%float]) in
  let same := sampleEvent "e3" phishing low (Some [2%float; 0%float]) in
  let far := sampleEvent "e4" intrusion low (Some [0%float; 3%float]) in
  let bare := sampleEvent "e5" intrusion low None in
  let targetEvent := sampleEvent "e1" malware high (Some [1%float; 0%float]) in
  let s := sampleStore [near; targetEvent; bare; far; same] in
  searchSimilarEvents bare 0.5%float 10 s = [] /\
  exists ranked,
    Permutation ranked [near; same] /\
    StronglySorted (at_least_as_similar [1%float; 0%float]) ranked /\
    searchSimilarEvents targetEvent 0.5%float 1 s = firstn 1 ranked.
Proof.
  intros near same far bare targetEvent s. split.
  - apply (proj1 (searchSimilarEvents_ranked bare 0.5%float 10 s)). reflexivity.
  - destruct (proj2 (searchSimilarEvents_ranked targetEvent 0.5%float 1 s)
                [1%float; 0%float] eq_refl)
      as (ranked & Hp & Hs & He & _).
    + lia.
    + exists ranked. split; [exact Hp|]. split; [exact Hs|exact He].
Defined.

(** *** Pages of events *)

Lemma slice_range {A : Type} (l : list A) (from to : Z) :
  0 <= from -> from <= to ->
  slice l from to = firstn (Z.to_nat (to - from)) (skipn (Z.to_nat from) l).
Proof.
  intros Hf Ht. unfold slice, clamp.
  replace (from <? 0) with false by (symmetry; apply Z.ltb_ge; lia).
  replace (to <? 0) with false by (symmetry; apply Z.ltb_ge; lia).
  destruct (Z.le_gt_cases (Z.of_nat (List.length l)) from) as [H|H].
  - rewrite !Z.min_r by lia. rewrite Z.sub_diag. simpl firstn.
    rewrite (skipn_all2 (n := Z.to_nat from)) by lia.
    rewrite firstn_nil. reflexivity.
  - rewrite (Z.min_l from) by lia.
    rewrite <- (firstn_min_length (Z.to_nat (to - from))).
    rewrite length_skipn. f_equal. lia.
Qed.

Lemma In_firstn {A : Type} (n : nat) (l : list A) (x : A) :
  In x (firstn n l) -> In x l.
Proof.
  intros H. rewrite <- (firstn_skipn n l). apply in_or_app. left. exact H.
Qed.

Lemma In_skipn {A : Type} (n : nat) (l : list A) (x : A) :
  In x (skipn n l) -> In x l.
Proof.
  intros H. rewrite <- (firstn_skipn n l). apply in_or_app. right. exact H.
Qed.

Lemma In_slice {A : Type} (l : list A) (from to : Z) (x : A) :
  In x (slice l from to) -> In x l.
Proof.
  unfold slice. intros H. apply In_firstn in H. apply In_skipn in H. exact H.
Qed.

(** X1: for an offset and a limit that are counts, [getEvents] returns the
    [limit] events that follow the first [offset] ones, fewer at the end of the
    collection and none past it; a page and the page that follows it make up
    the page of both sizes. *)
Theorem getEvents_pages (limit offset more : Z) (s : MockDataStore) :
  0 <= offset -> 0 <= limit -> 0 <= more ->
  getEvents limit offset s =
    firstn (Z.to_nat limit) (skipn (Z.to_nat offset) (events s)) /\
  Z.of_nat (List.length (getEvents limit offset s)) <= limit /\
  (Z.of_nat (List.length (events s)) <= offset -> getEvents limit offset s = []) /\
  getEvents limit offset s ++ getEvents more (offset + limit) s =
    getEvents (limit + more) offset s.
Proof.
  intros Ho Hl Hm.
  assert (P : forall n o, 0 <= o -> 0 <= n ->
            getEvents n o s = firstn (Z.to_nat n) (skipn (Z.to_nat o) (events s))).
  { intros n o Hn0 Ho0. unfold getEvents. rewrite slice_range by lia.
    f_equal. lia. }
  split; [apply P; lia|]. split; [|split].
  - rewrite P by lia.
    pose proof (firstn_le_length (Z.to_nat limit) (skipn (Z.to_nat offset) (events s))).
    lia.
  - intros H. rewrite P by lia. rewrite skipn_all2 by lia. apply firstn_nil.
  - rewrite !P by lia.
    replace (Z.to_nat (offset + limit))
      with (Z.to_nat limit + Z.to_nat offset)%nat by lia.
    rewrite <- (skipn_skipn (Z.to_nat limit) (Z.to_nat offset)).
    set (tail := skipn (Z.to_nat offset) (events s)).
    rewrite (Z2Nat.inj_add limit more) by lia.
    rewrite <- (firstn_skipn (Z.to_nat limit) (firstn (Z.to_nat limit + Z.to_nat more) tail)).
    rewrite firstn_firstn, skipn_firstn_comm.
    replace (Nat.min (Z.to_nat limit) (Z.to_nat limit + Z.to_nat more))
      with (Z.to_nat limit) by lia.
    replace (Z.to_nat limit + Z.to_nat more - Z.to_nat limit)%nat
      with (Z.to_nat more) by lia.
    reflexivity.
Qed.

Lemma getEvents_pages_witness :
  let s := sampleStore [sampleEvent "e1" malware high None;
                        sampleEvent "e2" phishing low None;
                        sampleEvent "e3" intrusion low None] in
  getEvents 2 1 s = [sampleEvent "e2" phishing low None;
                     sampleEvent "e3" intrusion low None] /\
  getEvents 1 0 s ++ getEvents 2 1 s = getEvents 3 0 s.
Proof.
  intros s. split.
  - apply (proj1 (getEvents_pages 2 1 0 s ltac:(lia) ltac:(lia) ltac:(lia))).
  - apply (proj2 (proj2 (proj2
             (getEvents_pages 1 0 2 s ltac:(lia) ltac:(lia) ltac:(lia))))).
Defined.

(** X2: once [addEvent] has run, [getEvents(1000, 0)], which the routes use
    to read the collection, returns every stored event. *)
Theorem getEvents_all_after_addEvent (J : ThreatAnalysis -> string)
    (calls : list Call) (c : Call) (s : MockDataStore) :
  getEvents 1000 0 (fold_left (ingest J) (c :: calls) s)
  = events (fold_left (ingest J) (c :: calls) s).
Proof.
  assert (L : (List.length (events (fold_left (ingest J) (c :: calls) s))
               <= Z.to_nat 1000)%nat).
  { revert c s. induction calls as [|c' calls IH]; intros c s.
    - simpl fold_left. rewrite ingest_events. apply firstn_le_length.
    - change (fold_left (ingest J) (c :: c' :: calls) s)
        with (fold_left (ingest J) (c' :: calls) (ingest J s c)).
      apply IH. }
  unfold getEvents. rewrite slice_range by lia.
  simpl skipn. apply firstn_all2. lia.
Qed.

(** *** Lookups, updates and insertions *)

Lemma find_id_split (i : string) (l : list SecurityEvent) (e : SecurityEvent) :
  find (fun x => String.eqb (id x) i) l = Some e ->
  exists before after,
    l = before ++ e :: after /\ id e = i /\ ~ In i (map id before).
Proof.
  induction l as [|x l IH]; simpl; intros H; [discriminate H|].
  destruct (String.eqb_spec (id x) i) as [E|E].
  - injection H as <-. exists [], l. simpl. auto.
  - destruct (IH H) as (before & after & Hl & He & Hb).
    exists (x :: before), after. simpl. rewrite Hl. repeat split; auto.
    intros [Hx|Hx]; [contradiction|exact (Hb Hx)].
Qed.

(** X3: [getEventById] finds nothing exactly when no stored event has the id;
    what it finds is the first stored event with that id. *)
Theorem getEventById_first (i : string) (s : MockDataStore) :
  (getEventById i s = None <-> ~ In i (map id (events s))) /\
  (forall e,
     getEventById i s = Some e ->
     exists before after,
       events s = before ++ e :: after /\ id e = i /\ ~ In i (map id before)).
Proof.
  unfold getEventById. split.
  - split.
    + intros H Hin. destruct (find_id_some _ _ Hin) as [e He]. congruence.
    + apply find_id_none.
  - intros e. apply find_id_split.
Qed.

Lemma find_mutate_first (i j : string) (f : SecurityEvent -> SecurityEvent)
    (l : list SecurityEvent) :
  (forall e, id (f e) = id e) ->
  find (fun e => String.eqb (id e) j)
    (mutate_first (fun e => String.eqb (id e) i) f l)
  = if String.eqb i j
    then option_map f (find (fun e => String.eqb (id e) i) l)
    else find (fun e => String.eqb (id e) j) l.
Proof.
  intros Hf. induction l as [|x l IH]; simpl.
  - destruct (String.eqb i j); reflexivity.
  - destruct (String.eqb_spec (id x) i) as [E|E]; simpl.
    + rewrite Hf. destruct (String.eqb_spec i j) as [E'|E'].
      * subst j. rewrite E, String.eqb_refl. reflexivity.
      * destruct (String.eqb_spec (id x) j) as [E2|E2]; [congruence|reflexivity].
    + destruct (String.eqb_spec i j) as [E'|E'].
      * subst j. destruct (String.eqb_spec (id x) i); [contradiction|].
        exact IH.
      * destruct (String.eqb (id x) j); [reflexivity|]. exact IH.
Qed.

Lemma id_applyUpdate (st : Status) (a : option string) (e : SecurityEvent) :
  id (applyUpdate st a e) = id e.
Proof. unfold applyUpdate. destruct a as [[|c a]|]; reflexivity. Qed.

Lemma events_updateEventStatus (i : string) (st : Status) (a : option string)
    (s : MockDataStore) :
  events (snd (updateEventStatus i st a s)) =
  mutate_first (fun e => String.eqb (id e) i) (applyUpdate st a) (events s).
Proof.
  unfold updateEventStatus.
  destruct (find _ (events s)) as [e|] eqn:E; [reflexivity|].
  simpl. induction (events s) as [|x l IH]; [reflexivity|].
  simpl in *. destruct (String.eqb (id x) i); [discriminate E|].
  rewrite <- IH by exact E. reflexivity.
Qed.

(** X4: after [updateEventStatus] on a stored id, [getEventById] on that id
    returns the event it returned before with the new status (and the new
    analysis, when a non-empty one was passed), and on every other id it
    returns what it returned before. *)
Theorem updateEventStatus_then_getEventById (i : string) (st : Status)
    (a : option string) (s : MockDataStore) :
  In i (map id (events s)) ->
  exists e,
    getEventById i s = Some e /\
    getEventById i (snd (updateEventStatus i st a s)) = Some (applyUpdate st a e) /\
    status (applyUpdate st a e) = st /\
    ai_analysis (applyUpdate st a e) = (if truthy a then a else ai_analysis e) /\
    forall j, j <> i ->
      getEventById j (snd (updateEventStatus i st a s)) = getEventById j s.
Proof.
  intros H. destruct (find_id_some _ _ H) as [e He]. exists e.
  unfold getEventById. rewrite events_updateEventStatus.
  split; [exact He|]. split; [|split; [|split]].
  - rewrite (find_mutate_first i i) by apply id_applyUpdate.
    rewrite String.eqb_refl, He. reflexivity.
  - unfold applyUpdate. destruct a as [[|c a]|]; reflexivity.
  - unfold applyUpdate. destruct a as [[|c a]|]; reflexivity.
  - intros j Hj. rewrite (find_mutate_first i j) by apply id_applyUpdate.
    destruct (String.eqb_spec i j); [congruence|reflexivity].
Qed.

Lemma updateEventStatus_then_getEventById_witness :
  let s := sampleStore [sampleEvent "e0" phishing low None;
                        sampleEvent "e1" malware high None] in
  exists e,
    getEventById "e1" s = Some e /\
    getEventById "e1" (snd (updateEventStatus "e1" resolved None s))
      = Some (applyUpdate resolved None e).
Proof.
  intros s.
  destruct (updateEventStatus_then_getEventById "e1" resolved None s)
    as (e & H1 & H2 & _).
  - simpl. right. left. reflexivity.
  - exists e. split; [exact H1|exact H2].
Defined.

Lemma mutate_first_idempotent (p : SecurityEvent -> bool)
    (f : SecurityEvent -> SecurityEvent) (l : list SecurityEvent) :
  (forall e, p (f e) = p e) -> (forall e, f (f e) = f e) ->
  mutate_first p f (mutate_first p f l) = mutate_first p f l.
Proof.
  intros Hp Hf. induction l as [|x l IH]; simpl; [reflexivity|].
  destruct (p x) eqn:E; simpl.
  - rewrite Hp, E, Hf. reflexivity.
  - rewrite E, IH. reflexivity.
Qed.

Lemma applyUpdate_idempotent (st : Status) (a : option string) (e : SecurityEvent) :
  applyUpdate st a (applyUpdate st a e) = applyUpdate st a e.
Proof. unfold applyUpdate. destruct a as [[|c a]|]; reflexivity. Qed.

Lemma find_mutate_first_flag (i : string) (f : SecurityEvent -> SecurityEvent)
    (l : list SecurityEvent) :
  (forall e, id (f e) = id e) ->
  (match find (fun e => String.eqb (id e) i)
           (mutate_first (fun e => String.eqb (id e) i) f l) with
   | Some _ => true | None => false end)
  = (match find (fun e => String.eqb (id e) i) l with
     | Some _ => true | None => false end).
Proof.
  intros Hf. rewrite (find_mutate_first i i) by exact Hf.
  rewrite String.eqb_refl. destruct (find _ l); reflexivity.
Qed.

(** X6: repeating a call of [updateEventStatus] changes nothing: the second
    call returns the flag of the first and leaves the store of the first. *)
Theorem updateEventStatus_twice (i : string) (st : Status) (a : option string)
    (s : MockDataStore) :
  updateEventStatus i st a (snd (updateEventStatus i st a s))
  = updateEventStatus i st a s.
Proof.
  unfold updateEventStatus at 2 3.
  destruct (find (fun e => String.eqb (id e) i) (events s)) as [e|] eqn:E.
  - cbn [snd]. unfold updateEventStatus. cbn [events set_events isGenerating].
    pose proof (find_mutate_first_flag i (applyUpdate st a) (events s)
                  (id_applyUpdate st a)) as F.
    rewrite E in F.
    destruct (find _ (mutate_first _ _ (events s))); [|discriminate F].
    rewrite mutate_first_idempotent.
    + reflexivity.
    + intros x. rewrite id_applyUpdate. reflexivity.
    + apply applyUpdate_idempotent.
  - cbn [snd]. unfold updateEventStatus. rewrite E. reflexivity.
Qed.

Lemma same_but_status_mutate (i : string) (st : Status) (a : option string)
    (l : list SecurityEvent) :
  same_but_status l
    (mutate_first (fun e => String.eqb (id e) i) (applyUpdate st a) l).
Proof.
  unfold same_but_status. induction l as [|x l IH]; simpl; [constructor|].
  destruct (String.eqb (id x) i).
  - constructor.
    + unfold applyUpdate. destruct a as [[|c a]|]; cbn; repeat split; reflexivity.
    + clear IH. induction l as [|y l IH]; constructor; [|exact IH].
      repeat split; reflexivity.
  - constructor; [|exact IH]. repeat split; reflexivity.
Qed.

Lemma same_length (l l' : list SecurityEvent) :
  same_but_status l l' -> List.length l' = List.length l.
Proof. intros S. symmetry. exact (Forall2_length S). Qed.

Lemma same_map {B : Type} (proj : SecurityEvent -> B) (l l' : list SecurityEvent) :
  (forall e e', id e' = id e -> timestamp e' = timestamp e ->
                event_type e' = event_type e -> severity e' = severity e ->
                proj e' = proj e) ->
  same_but_status l l' ->
  map proj l' = map proj l.
Proof.
  intros Hp S. unfold same_but_status in S.
  induction S as [|e e' t t' H S IH]; simpl; [reflexivity|].
  destruct H as (H1 & H2 & H3 & H4 & _).
  rewrite IH, (Hp e e' H1 H2 H3 H4). reflexivity.
Qed.

Lemma count_by_map {B : Type} (proj : SecurityEvent -> B) (q : B -> bool)
    (l : list SecurityEvent) :
  count (fun e => q (proj e)) l = Z.of_nat (List.length (filter q (map proj l))).
Proof.
  unfold count. rewrite filter_of_map, length_map. reflexivity.
Qed.

Lemma countBy_by_map (key : SecurityEvent -> string) (l : list SecurityEvent) :
  countBy key l = fold_left (fun acc k => increment k acc) (map key l) [].
Proof.
  unfold countBy. generalize (@nil (string * Z)).
  induction l as [|e l IH]; intros acc; simpl; [reflexivity|apply IH].
Qed.

Lemma dailyStat_by_map (startOfDay endOfDay : Z -> Z) (isoDate : Z -> string)
    (now i : Z) (l l' : list SecurityEvent) :
  map (fun e => (timestamp e, severity e)) l'
  = map (fun e => (timestamp e, severity e)) l ->
  dailyStat startOfDay endOfDay isoDate now l' i
  = dailyStat startOfDay endOfDay isoDate now l i.
Proof.
  intros H. unfold dailyStat. cbv zeta.
  set (ds := startOfDay (now - i * ms_per_day)).
  set (de := endOfDay ds).
  assert (F : map (fun e => (timestamp e, severity e))
                (filter (fun e => (ds <=? timestamp e) && (timestamp e <=? de)) l')
              = map (fun e => (timestamp e, severity e))
                  (filter (fun e => (ds <=? timestamp e) && (timestamp e <=? de)) l)).
  { rewrite <- !(filter_of_map (fun e => (timestamp e, severity e))
                   (fun p => (ds <=? fst p) && (fst p <=? de))).
    rewrite H. reflexivity. }
  set (d := filter (fun e => (ds <=? timestamp e) && (timestamp e <=? de)) l) in *.
  set (d' := filter (fun e => (ds <=? timestamp e) && (timestamp e <=? de)) l') in *.
  assert (L : List.length d' = List.length d).
  { rewrite <- (length_map (fun e => (timestamp e, severity e)) d'), F.
    apply length_map. }
  assert (C : forall sev,
            count (fun e => Severity_eqb (severity e) sev) d'
            = count (fun e => Severity_eqb (severity e) sev) d).
  { intros sev.
    rewrite !(count_by_map (fun e => (timestamp e, severity e))
                (fun p => Severity_eqb (snd p) sev)).
    rewrite F. reflexivity. }
  rewrite L, !C. reflexivity.
Qed.

(** X5: [updateEventStatus] keeps the events, their order and every field of
    theirs other than status and analysis; so [getStats] reports the same
    total, the same counts in the time windows, the same counts by category
    and by severity, and the same daily figures as before. *)
Theorem updateEventStatus_keeps_statistics (startOfDay endOfDay : Z -> Z)
    (isoDate : Z -> string) (now : Z) (i : string) (st : Status)
    (a : option string) (s : MockDataStore) :
  let s' := snd (updateEventStatus i st a s) in
  let before := getStats startOfDay endOfDay isoDate now s in
  let after := getStats startOfDay endOfDay isoDate now s' in
  same_but_status (events s) (events s') /\
  totalEvents after = totalEvents before /\
  recentEvents after = recentEvents before /\
  weeklyEvents after = weeklyEvents before /\
  criticalEvents after = criticalEvents before /\
  highEvents after = highEvents before /\
  eventsByType after = eventsByType before /\
  eventsBySeverity after = eventsBySeverity before /\
  dailyStats after = dailyStats before.
Proof.
  cbv zeta. rewrite events_updateEventStatus.
  pose proof (same_but_status_mutate i st a (events s)) as S.
  set (l := events s) in *.
  set (l' := mutate_first _ _ l) in *.
  assert (T : map timestamp l' = map timestamp l)
    by (apply same_map; auto).
  assert (V : map severity l' = map severity l)
    by (apply same_map; auto).
  assert (K : map event_type l' = map event_type l)
    by (apply same_map; auto).
  assert (P : map (fun e => (timestamp e, severity e)) l'
              = map (fun e => (timestamp e, severity e)) l)
    by (apply same_map; [intros; congruence|exact S]).
  split; [exact S|]. unfold getStats.
  cbn [totalEvents recentEvents weeklyEvents criticalEvents highEvents
       eventsByType eventsBySeverity dailyStats events set_events].
  fold l.
  assert (E' : events (snd (updateEventStatus i st a s)) = l')
    by apply events_updateEventStatus.
  rewrite E'.
  repeat split.
  - rewrite (same_length l l' S). reflexivity.
  - rewrite !(count_by_map timestamp (fun ts => now - ms_per_day <? ts)), T.
    reflexivity.
  - rewrite !(count_by_map timestamp (fun ts => now - 7 * ms_per_day <? ts)), T.
    reflexivity.
  - rewrite !(count_by_map severity (fun v => Severity_eqb v critical)), V.
    reflexivity.
  - rewrite !(count_by_map severity (fun v => Severity_eqb v high)), V.
    reflexivity.
  - rewrite !(countBy_by_map (fun e => EventType_str (event_type e))).
    rewrite <- !(map_map event_type EventType_str), K. reflexivity.
  - rewrite !(countBy_by_map (fun e => Severity_str (severity e))).
    rewrite <- !(map_map severity Severity_str), V. reflexivity.
  - apply map_ext. intros d. apply dailyStat_by_map. exact P.
Qed.

(** X7: a call of [addEvent] on a store that holds fewer than 1000 events puts
    the new event in front of the events that were there, all of which stay,
    in their order, and are found under their ids as before; on a store that
    holds 1000 events it drops the last event of the collection and keeps
    the others behind the new one. *)
Theorem addEvent_keeps_or_evicts (J : ThreatAnalysis -> string) (c : Call)
    (s : MockDataStore) :
  ((List.length (events s) < 1000)%nat ->
   events (ingest J s c) = inserted J c :: events s /\
   forall j, j <> c_uuid c ->
     getEventById j (ingest J s c) = getEventById j s) /\
  (List.length (events s) = 1000%nat ->
   events (ingest J s c) = inserted J c :: removelast (events s)).
Proof.
  assert (E : events (ingest J s c)
              = inserted J c :: firstn (Z.to_nat 999) (events s)).
  { rewrite ingest_events.
    change (Z.to_nat 1000) with (S (Z.to_nat 999)). reflexivity. }
  split.
  - intros H.
    assert (E' : events (ingest J s c) = inserted J c :: events s).
    { rewrite E, firstn_all2; [reflexivity|]. lia. }
    split; [exact E'|].
    intros j Hj. unfold getEventById. rewrite E'. cbn [find].
    unfold inserted. rewrite id_enriched.
    destruct (String.eqb_spec (c_uuid c) j); [congruence|reflexivity].
  - intros H. rewrite E, removelast_firstn_len, H. reflexivity.
Qed.

Lemma addEvent_keeps_or_evicts_witness :
  let c := {| c_uuid := "e2"; c_data := sampleData phishing low;
              c_analysis := Rejected; c_vector := Rejected |} in
  let s := sampleStore [sampleEvent "e1" malware high None] in
  events (ingest threat_type s c)
  = [inserted threat_type c; sampleEvent "e1" malware high None].
Proof.
  intros c s.
  apply (proj1 (proj1 (addEvent_keeps_or_evicts threat_type c s)
                  ltac:(simpl; lia))).
Defined.

(** *** Grouping and counting *)

Lemma first_occurrences_In (k : string) (ks : list string) :
  In k (first_occurrences ks) <-> In k ks.
Proof.
  induction ks as [|a ks IH]; simpl; [tauto|].
  rewrite filter_In, IH. split.
  - intros [H|[H _]]; auto.
  - intros [H|H]; [left; exact H|].
    destruct (String.eqb_spec k a) as [E|E]; [left; congruence|].
    right. split; [exact H|reflexivity].
Qed.

Lemma first_occurrences_NoDup (ks : list string) : NoDup (first_occurrences ks).
Proof.
  induction ks as [|a ks IH]; simpl; constructor.
  - rewrite filter_In. intros [_ H]. rewrite String.eqb_refl in H. discriminate H.
  - apply NoDup_filter, IH.
Qed.

Lemma first_occurrences_snoc (k : string) (ks : list string) :
  first_occurrences (ks ++ [k]) =
  if in_dec string_dec k ks then first_occurrences ks
  else first_occurrences ks ++ [k].
Proof.
  induction ks as [|a ks IH]; simpl; [reflexivity|].
  rewrite IH. destruct (in_dec string_dec k ks) as [H|H].
  - destruct (string_dec a k); reflexivity.
  - rewrite filter_app. simpl.
    destruct (string_dec a k) as [E|E].
    + subst a. rewrite String.eqb_refl. simpl. rewrite app_nil_r. reflexivity.
    + destruct (String.eqb_spec k a) as [E'|E']; [congruence|]. reflexivity.
Qed.

Lemma occurrences_snoc (key : SecurityEvent -> string) (k : string)
    (l : list SecurityEvent) (e : SecurityEvent) :
  occurrences key k (l ++ [e]) =
  occurrences key k l + (if String.eqb (key e) k then 1 else 0).
Proof.
  unfold occurrences, count. rewrite filter_app, length_app. simpl.
  destruct (String.eqb (key e) k); simpl; lia.
Qed.

Lemma occurrences_absent (key : SecurityEvent -> string) (k : string)
    (l : list SecurityEvent) :
  ~ In k (map key l) -> occurrences key k l = 0.
Proof.
  unfold occurrences, count. induction l as [|e l IH]; simpl; intros H; [reflexivity|].
  destruct (String.eqb_spec (key e) k) as [E|E]; [exfalso; auto|].
  apply IH. intros Hin. apply H. right. exact Hin.
Qed.

Lemma occurrences_present (key : SecurityEvent -> string) (k : string)
    (l : list SecurityEvent) :
  In k (map key l) -> 0 < occurrences key k l.
Proof.
  unfold occurrences, count. induction l as [|e l IH]; simpl; intros H; [contradiction|].
  destruct (String.eqb_spec (key e) k) as [E|E]; [simpl; lia|].
  destruct H as [H|H]; [contradiction|]. apply IH, H.
Qed.

Lemma increment_present (k0 : string) (g g' : string -> Z) (ks : list string) :
  NoDup ks -> In k0 ks ->
  g' k0 = g k0 + 1 -> (forall k, k <> k0 -> g' k = g k) ->
  increment k0 (map (fun k => (k, g k)) ks) = map (fun k => (k, g' k)) ks.
Proof.
  intros N H H0 H1. induction ks as [|a ks IH]; simpl; [contradiction|].
  inversion N as [|? ? Ha N']; subst.
  destruct (String.eqb_spec a k0) as [E|E].
  - subst a. rewrite H0. f_equal.
    apply map_ext_in. intros k Hk. rewrite H1; [reflexivity|].
    intros ->. contradiction.
  - rewrite (H1 a E). f_equal. apply IH; [exact N'|].
    destruct H as [H|H]; [contradiction|exact H].
Qed.

Lemma increment_absent (k0 : string) (g g' : string -> Z) (ks : list string) :
  ~ In k0 ks -> g' k0 = 1 -> (forall k, k <> k0 -> g' k = g k) ->
  increment k0 (map (fun k => (k, g k)) ks) = map (fun k => (k, g' k)) (ks ++ [k0]).
Proof.
  intros H H0 H1. induction ks as [|a ks IH]; simpl.
  - rewrite H0. reflexivity.
  - destruct (String.eqb_spec a k0) as [E|E]; [exfalso; apply H; left; exact E|].
    rewrite (H1 a E). f_equal. apply IH. intros Hin. apply H. right. exact Hin.
Qed.

(** What the grouping reduce computes: one entry per key that occurs, in the
    order of first occurrence, holding the number of events with that key. *)
Lemma countBy_spec (key : SecurityEvent -> string) (l : list SecurityEvent) :
  countBy key l =
  map (fun k => (k, occurrences key k l)) (first_occurrences (map key l)).
Proof.
  induction l as [|e l IH] using rev_ind; [reflexivity|].
  unfold countBy in *. rewrite fold_left_app. simpl fold_left. rewrite IH.
  rewrite map_app. simpl map. rewrite first_occurrences_snoc.
  destruct (in_dec string_dec (key e) (map key l)) as [H|H].
  - apply increment_present.
    + apply first_occurrences_NoDup.
    + apply first_occurrences_In, H.
    + rewrite occurrences_snoc, String.eqb_refl. reflexivity.
    + intros k Hk. rewrite occurrences_snoc.
      destruct (String.eqb_spec (key e) k); [congruence|lia].
  - apply increment_absent.
    + rewrite first_occurrences_In. exact H.
    + rewrite occurrences_snoc, String.eqb_refl, occurrences_absent by exact H.
      reflexivity.
    + intros k Hk. rewrite occurrences_snoc.
      destruct (String.eqb_spec (key e) k); [congruence|lia].
Qed.

Lemma lookup_map_keys (g : string -> Z) (k : string) (ks : list string) :
  lookup k (map (fun k => (k, g k)) ks) =
  if in_dec string_dec k ks then Some (g k) else None.
Proof.
  induction ks as [|a ks IH]; simpl; [reflexivity|].
  destruct (String.eqb_spec a k) as [E|E].
  - subst a. destruct (string_dec k k); [reflexivity|contradiction].
  - rewrite IH. destruct (string_dec a k); [contradiction|].
    destruct (in_dec string_dec k ks); reflexivity.
Qed.

(** The value under a key is the number of events with that key; a key that
    no event has is not there. *)
Lemma lookup_countBy (key : SecurityEvent -> string) (k : string)
    (l : list SecurityEvent) :
  lookup k (countBy key l) =
  if occurrences key k l =? 0 then None else Some (occurrences key k l).
Proof.
  rewrite countBy_spec, lookup_map_keys.
  destruct (in_dec string_dec k (first_occurrences (map key l))) as [H|H].
  - apply first_occurrences_In, occurrences_present in H.
    destruct (Z.eqb_spec (occurrences key k l) 0); [lia|reflexivity].
  - rewrite first_occurrences_In in H.
    rewrite (occurrences_absent _ _ _ H). reflexivity.
Qed.

(** X8: the three records of [getStats] hold one entry per category, severity
    and status that occurs among the stored events, in the order in which
    they first occur, each with the number of events that have it. *)
Theorem getStats_records (startOfDay endOfDay : Z -> Z) (isoDate : Z -> string)
    (now : Z) (s : MockDataStore) :
  let stats := getStats startOfDay endOfDay isoDate now s in
  let byType := fun e => EventType_str (event_type e) in
  let bySeverity := fun e => Severity_str (severity e) in
  let byStatus := fun e => Status_str (status e) in
  eventsByType stats =
    map (fun k => (k, occurrences byType k (events s)))
      (first_occurrences (map byType (events s))) /\
  eventsBySeverity stats =
    map (fun k => (k, occurrences bySeverity k (events s)))
      (first_occurrences (map bySeverity (events s))) /\
  eventsByStatus stats =
    map (fun k => (k, occurrences byStatus k (events s)))
      (first_occurrences (map byStatus (events s))).
Proof.
  cbv zeta. unfold getStats. cbn [eventsByType eventsBySeverity eventsByStatus].
  repeat split; apply countBy_spec.
Qed.

(** X9: the counters of [getStats] agree with its records: the entry of
    [eventsBySeverity] for critical (high) holds [criticalEvents]
    ([highEvents]), the entry of [eventsByStatus] for resolved (new) holds
    [resolvedEvents] ([newEvents]); when a counter is 0 the record has no such
    key. *)
Theorem getStats_counters_match_records (startOfDay endOfDay : Z -> Z)
    (isoDate : Z -> string) (now : Z) (s : MockDataStore) :
  let stats := getStats startOfDay endOfDay isoDate now s in
  let entry := fun n : Z => if n =? 0 then None else Some n in
  lookup "critical" (eventsBySeverity stats) = entry (criticalEvents stats) /\
  lookup "high" (eventsBySeverity stats) = entry (highEvents stats) /\
  lookup "resolved" (eventsByStatus stats) = entry (resolvedEvents stats) /\
  lookup "new" (eventsByStatus stats) = entry (newEvents stats).
Proof.
  cbv zeta. unfold getStats.
  cbn [eventsBySeverity eventsByStatus criticalEvents highEvents
       resolvedEvents newEvents].
  repeat split; apply lookup_countBy.
Qed.

(** *** Time windows and daily figures *)

Lemma count_le (p q : SecurityEvent -> bool) (l : list SecurityEvent) :
  (forall e, p e = true -> q e = true) -> count p l <= count q l.
Proof.
  intros H. unfold count. induction l as [|e l IH]; simpl; [lia|].
  destruct (p e) eqn:E.
  - rewrite (H e E). simpl. lia.
  - destruct (q e); simpl; lia.
Qed.

Lemma count_cons (p : SecurityEvent -> bool) (e : SecurityEvent)
    (l : list SecurityEvent) :
  count p (e :: l) = (if p e then 1 else 0) + count p l.
Proof. unfold count. simpl. destruct (p e); simpl List.length; lia. Qed.

Lemma count_le_length (p : SecurityEvent -> bool) (l : list SecurityEvent) :
  0 <= count p l <= Z.of_nat (List.length l).
Proof.
  unfold count. induction l as [|e l IH]; simpl; [lia|].
  destruct (p e); simpl; lia.
Qed.

(** X10: of the counts of [getStats], the one for the last day is at most the
    one for the last week, which is at most the total.  [getRecentActivity(24)]
    read at the same instant holds as many events as [recentEvents] says, and
    read later it holds at most that many. *)
Theorem recent_activity_counts (startOfDay endOfDay : Z -> Z)
    (isoDate : Z -> string) (now later : Z) (s : MockDataStore) :
  now <= later ->
  let stats := getStats startOfDay endOfDay isoDate now s in
  recentEvents stats <= weeklyEvents stats /\
  weeklyEvents stats <= totalEvents stats /\
  Z.of_nat (List.length (getRecentActivity now 24 s)) = recentEvents stats /\
  Z.of_nat (List.length (getRecentActivity later 24 s)) <= recentEvents stats.
Proof.
  intros H. cbv zeta. unfold getStats, getRecentActivity.
  cbn [recentEvents weeklyEvents totalEvents].
  split; [|split; [|split]].
  - apply count_le. intros e He. unfold ms_per_day in *.
    apply Z.ltb_lt in He. apply Z.ltb_lt. lia.
  - apply count_le_length.
  - reflexivity.
  - apply (count_le (fun e => later - 24 * 60 * 60 * 1000 <? timestamp e)
             (fun e => now - ms_per_day <? timestamp e)).
    intros e He. unfold ms_per_day. apply Z.ltb_lt in He. apply Z.ltb_lt. lia.
Qed.

Lemma recent_activity_counts_witness :
  let s := sampleStore [sampleEvent "e1" malware high None] in
  Z.of_nat (List.length (getRecentActivity 1700000100000 24 s))
  <= recentEvents (getStats (fun t => t) (fun t => t) (fun _ => "day")
                     1700000000000 s).
Proof.
  intros s.
  apply (proj2 (proj2 (proj2
           (recent_activity_counts (fun t => t) (fun t => t) (fun _ => "day")
              1700000000000 1700000100000 s ltac:(lia))))).
Defined.

Lemma severity_counts_add_up (l : list SecurityEvent) :
  count (fun e => Severity_eqb (severity e) critical) l
  + count (fun e => Severity_eqb (severity e) high) l
  + count (fun e => Severity_eqb (severity e) medium) l
  + count (fun e => Severity_eqb (severity e) low) l
  = Z.of_nat (List.length l).
Proof.
  induction l as [|e l IH]; [reflexivity|].
  rewrite !count_cons. change (List.length (e :: l)) with (S (List.length l)).
  destruct (severity e);
    repeat match goal with
    | |- context [Severity_eqb ?a ?b] =>
        let v := eval vm_compute in (Severity_eqb a b) in
        change (Severity_eqb a b) with v
    end; lia.
Qed.

(** X11: [getStats] reports seven daily figures; in each, the counts of
    critical, high, medium and low events add up to the count of the events of
    the day, which is at most the total.  The same holds for the whole
    collection: the four severity counts add up to the number of events, so
    [criticalEvents] and [highEvents] together never exceed [totalEvents]. *)
Theorem getStats_daily_figures (startOfDay endOfDay : Z -> Z)
    (isoDate : Z -> string) (now : Z) (s : MockDataStore) :
  let stats := getStats startOfDay endOfDay isoDate now s in
  List.length (dailyStats stats) = 7%nat /\
  Forall (fun d =>
            d_critical d + d_high d + d_medium d + d_low d = d_events d /\
            0 <= d_events d <= totalEvents stats)
    (dailyStats stats) /\
  criticalEvents stats + highEvents stats <= totalEvents stats.
Proof.
  cbv zeta. unfold getStats.
  cbn [dailyStats totalEvents criticalEvents highEvents].
  split; [reflexivity|]. split.
  - apply Forall_forall. intros d Hd. apply in_map_iff in Hd.
    destruct Hd as (i & <- & _). unfold dailyStat. cbv zeta.
    cbn [d_critical d_high d_medium d_low d_events].
    split; [apply severity_counts_add_up|].
    apply (count_le_length
             (fun e => (startOfDay (now - i * ms_per_day) <=? timestamp e)
                       && (timestamp e
                           <=? endOfDay (startOfDay (now - i * ms_per_day))))).
  - pose proof (severity_counts_add_up (events s)) as A.
    pose proof (count_le_length (fun e => Severity_eqb (severity e) medium) (events s)).
    pose proof (count_le_length (fun e => Severity_eqb (severity e) low) (events s)).
    lia.
Qed.

(** *** Ranking by count *)

Lemma insert_filter {A : Type} (after : A -> A -> bool) (p : A -> bool) (x : A)
    (l : list A) :
  (forall y, p x = true -> p y = true -> after x y = false) ->
  filter p (insert after x l) = filter p (x :: l).
Proof.
  intros H. induction l as [|y l IH]; [reflexivity|].
  cbn [insert]. destruct (after x y) eqn:E; [|reflexivity].
  cbn [filter] in *. rewrite IH.
  destruct (p x) eqn:Px, (p y) eqn:Py; try reflexivity.
  rewrite (H y eq_refl Py) in E. discriminate E.
Qed.

(** The sort is stable: elements that the comparator does not tell apart keep
    their order. *)
Lemma sort_filter {A : Type} (after : A -> A -> bool) (p : A -> bool) (l : list A) :
  (forall x y, p x = true -> p y = true -> after x y = false) ->
  filter p (sort after l) = filter p l.
Proof.
  intros H. induction l as [|x l IH]; [reflexivity|].
  cbn [sort]. rewrite insert_filter by (intros y; apply H).
  cbn [filter]. rewrite IH. reflexivity.
Qed.

Lemma sum_counts_perm (l l' : list Threat) :
  Permutation l l' -> sum_counts l = sum_counts l'.
Proof.
  unfold sum_counts. induction 1; simpl; lia.
Qed.

Lemma sum_counts_toThreat (o : list (string * Z)) :
  sum_counts (map toThreat o) = sum_values o.
Proof.
  unfold sum_counts, sum_values.
  induction o as [|[k n] o IH]; simpl; [reflexivity|]. rewrite IH. reflexivity.
Qed.

Lemma sum_counts_firstn (n : nat) (l : list Threat) :
  Forall (fun t => 0 < t_count t) l ->
  sum_counts (firstn n l) <= sum_counts l.
Proof.
  intros H. revert n. induction H as [|t l Ht H IH]; intros n.
  - rewrite firstn_nil. lia.
  - destruct n as [|n]; simpl.
    + assert (0 <= sum_counts l).
      { clear IH. induction H as [|u m Hu H IH]; simpl; [lia|].
        unfold sum_counts in *. simpl. lia. }
      unfold sum_counts in *. simpl. lia.
    + specialize (IH n). unfold sum_counts in *. simpl. lia.
Qed.

Lemma countBy_positive (key : SecurityEvent -> string) (l : list SecurityEvent) :
  Forall (fun entry => 0 < snd entry) (countBy key l).
Proof.
  rewrite countBy_spec. apply Forall_forall. intros [k n] H.
  apply in_map_iff in H. destruct H as (k' & E & Hk). injection E as <- <-.
  apply occurrences_present, first_occurrences_In, Hk.
Qed.

(** X12: for a limit that is a count, [getTopThreats] returns the first
    [limit] entries of a ranking of the groups: every group of events with the
    same category and severity is in it once, with the number of its events;
    the counts fall along the ranking, and groups with the same count stand in
    the order in which their first events are stored.  The counts returned add
    up to at most the number of stored events. *)
Theorem getTopThreats_ranking (limit : Z) (s : MockDataStore) :
  0 <= limit ->
  let groups := map toThreat (countBy threatKey (events s)) in
  exists ranking,
    getTopThreats limit s = firstn (Z.to_nat limit) ranking /\
    Permutation ranking groups /\
    StronglySorted (fun a b => t_count b <= t_count a) ranking /\
    (forall n, filter (fun t => t_count t =? n) ranking
               = filter (fun t => t_count t =? n) groups) /\
    map t_count groups
      = map (fun k => occurrences threatKey k (events s))
          (first_occurrences (map threatKey (events s))) /\
    sum_counts ranking = Z.of_nat (List.length (events s)) /\
    sum_counts (getTopThreats limit s) <= Z.of_nat (List.length (events s)).
Proof.
  intros Hl. cbv zeta. unfold getTopThreats.
  rewrite slice_prefix by exact Hl.
  set (groups := map toThreat (countBy threatKey (events s))).
  assert (P : Forall (fun t => 0 < t_count t) (sort less_frequent groups)).
  { apply (Permutation_Forall (x := groups));
      [apply Permutation_sym, sort_perm|].
    unfold groups. apply Forall_forall. intros t Ht.
    apply in_map_iff in Ht. destruct Ht as ([k n] & <- & Hin).
    pose proof (countBy_positive threatKey (events s)) as C.
    rewrite Forall_forall in C. exact (C _ Hin). }
  assert (T : sum_counts (sort less_frequent groups)
              = Z.of_nat (List.length (events s))).
  { rewrite (sum_counts_perm _ _ (sort_perm less_frequent groups)).
    unfold groups. rewrite sum_counts_toThreat. apply sum_values_countBy. }
  exists (sort less_frequent groups).
  split; [reflexivity|]. split; [apply sort_perm|].
  split; [|split; [|split; [|split]]].
  - apply (sort_sorted _ _ (fun a b => t_count b <= t_count a) (fun _ => True)).
    + intros x y _ _ H. unfold less_frequent in H. apply Z.ltb_lt in H. lia.
    + intros x y _ _ H. unfold less_frequent in H. apply Z.ltb_ge in H. lia.
    + intros x y z H1 H2. lia.
    + apply Forall_forall. intros; exact I.
  - intros n. apply sort_filter. intros x y Hx Hy.
    apply Z.eqb_eq in Hx. apply Z.eqb_eq in Hy.
    unfold less_frequent. apply Z.ltb_ge. lia.
  - unfold groups. rewrite countBy_spec, !map_map.
    apply map_ext. intros k. reflexivity.
  - exact T.
  - rewrite <- T. apply sum_counts_firstn, P.
Qed.

Lemma getTopThreats_ranking_witness :
  exists ranking,
    getTopThreats 1 (sampleStore [sampleEvent "e1" malware high None;
                                  sampleEvent "e2" phishing low None;
                                  sampleEvent "e3" phishing low None])
    = firstn 1 ranking /\
    sum_counts ranking = 3.
Proof.
  destruct (getTopThreats_ranking 1
              (sampleStore [sampleEvent "e1" malware high None;
                            sampleEvent "e2" phishing low None;
                            sampleEvent "e3" phishing low None]))
    as (ranking & H1 & _ & _ & _ & _ & H2 & _).
  - lia.
  - exists ranking. split; [exact H1|exact H2].
Defined.

Lemma toThreat_threatKey (e : SecurityEvent) (n : Z) :
  toThreat (threatKey e, n) =
  {| t_type := Some (reported_type (event_type e));
     t_count := n;
     t_severity := Some (reported_severity (event_type e) (severity e)) |}.
Proof.
  unfold threatKey. destruct (event_type e), (severity e); reflexivity.
Qed.

(** X13: whatever the limit, every entry that [getTopThreats] returns stands
    for a stored event: its count is the number of stored events with that
    event's category and severity, its type is the category up to the first
    underscore, and its severity is the event's severity when the category has
    no underscore, and otherwise the part of the category behind the first
    underscore. *)
Theorem getTopThreats_entries (limit : Z) (s : MockDataStore) (t : Threat) :
  In t (getTopThreats limit s) ->
  exists e,
    In e (events s) /\
    t_count t = occurrences threatKey (threatKey e) (events s) /\
    t_type t = Some (reported_type (event_type e)) /\
    t_severity t = Some (reported_severity (event_type e) (severity e)).
Proof.
  unfold getTopThreats. intros H. apply In_slice in H.
  apply (Permutation_in _ (sort_perm less_frequent _)) in H.
  apply in_map_iff in H. destruct H as ([k n] & <- & H).
  rewrite countBy_spec in H. apply in_map_iff in H.
  destruct H as (k' & E & Hk). injection E as <- <-.
  apply first_occurrences_In, in_map_iff in Hk.
  destruct Hk as (e & <- & He).
  exists e. rewrite toThreat_threatKey. cbn. auto.
Qed.

Lemma getTopThreats_entries_witness :
  exists e,
    In e [sampleEvent "e1" data_breach critical None] /\
    t_type {| t_type := Some "data"; t_count := 1; t_severity := Some "breach" |}
    = Some (reported_type (event_type e)).
Proof.
  destruct (getTopThreats_entries 5
              (sampleStore [sampleEvent "e1" data_breach critical None])
              {| t_type := Some "data"; t_count := 1; t_severity := Some "breach" |})
    as (e & H1 & _ & H2 & _).
  - left. reflexivity.
  - exists e. split; [exact H1|exact H2].
Defined.

(** *** Cosine similarity *)

Lemma SFmul_comm (x y : spec_float) : SF64mul x y = SF64mul y x.
Proof.
  unfold SF64mul.
  destruct x as [sx|sx| |sx mx ex], y as [sy|sy| |sy my ey]; simpl;
    try reflexivity; try (rewrite (xorb_comm sx sy); reflexivity).
  rewrite (xorb_comm sx sy), (Pos.mul_comm mx my), (Z.add_comm ex ey).
  reflexivity.
Qed.

Lemma mul_comm (x y : float) : (x * y)%float = (y * x)%float.
Proof.
  apply Prim2SF_inj. rewrite !mul_spec. apply SFmul_comm.
Qed.

(** The loop of [cosineSimilarity], from given partial sums. *)
Lemma cosine_loop_swap (a b : list float) :
  forall d na nb : float,
    fold_left
      (fun '(dotProduct, normA, normB) '(ai, bi) =>
         ((dotProduct + ai * bi)%float, (normA + ai * ai)%float,
          (normB + bi * bi)%float))
      (combine b a) (d, nb, na)
    = let '(d', na', nb') :=
        fold_left
          (fun '(dotProduct, normA, normB) '(ai, bi) =>
             ((dotProduct + ai * bi)%float, (normA + ai * ai)%float,
              (normB + bi * bi)%float))
          (combine a b) (d, na, nb) in
      (d', nb', na').
Proof.
  revert b. induction a as [|x a IH]; intros b d na nb.
  - destruct b; reflexivity.
  - destruct b as [|y b]; [reflexivity|].
    cbn [combine fold_left]. rewrite (mul_comm y x). apply IH.
Qed.

(** X14: cosine similarity is symmetric: exchanging the two vectors gives the
    same number (the same NaN, when it is one). *)
Theorem cosineSimilarity_symmetric (a b : list float) :
  cosineSimilarity a b = cosineSimilarity b a.
Proof.
  unfold cosineSimilarity.
  rewrite (Nat.eqb_sym (List.length b) (List.length a)).
  destruct (Nat.eqb (List.length a) (List.length b)); [|reflexivity].
  cbn [negb].
  rewrite (cosine_loop_swap a b 0%float 0%float 0%float).
  destruct (fold_left _ (combine a b) _) as [[d na] nb].
  rewrite (mul_comm (sqrt nb) (sqrt na)). reflexivity.
Qed.

Lemma is_zero_spec (x : float) :
  is_zero x = true -> exists s, Prim2SF x = S754_zero s.
Proof.
  unfold is_zero. rewrite eqb_spec.
  change (Prim2SF zero) with (S754_zero false).
  destruct (Prim2SF x) as [s|s| |s m e]; simpl; intros H;
    try discriminate H; try (destruct s; discriminate H).
  exists s. reflexivity.
Qed.

Lemma mul_zero_zn (x y : float) :
  is_zero x = true -> zero_or_nan (Prim2SF (x * y)).
Proof.
  intros H. destruct (is_zero_spec x H) as [s Hs].
  rewrite mul_spec, Hs. destruct (Prim2SF y); exact I.
Qed.

Lemma add_zn (d p : float) :
  zero_or_nan (Prim2SF d) -> zero_or_nan (Prim2SF p) ->
  zero_or_nan (Prim2SF (d + p)).
Proof.
  rewrite add_spec.
  destruct (Prim2SF d) as [s|s| |s m e], (Prim2SF p) as [s'|s'| |s' m' e'];
    simpl; try contradiction; intros _ _; try exact I.
  destruct s, s'; exact I.
Qed.

Lemma square_zero (x : float) :
  is_zero x = true -> (0 + x * x)%float = 0%float.
Proof.
  intros H. destruct (is_zero_spec x H) as [s Hs].
  apply Prim2SF_inj. rewrite add_spec, mul_spec, Hs, Prim2SF_zero.
  destruct s; reflexivity.
Qed.

Lemma div_zn (d w : float) :
  zero_or_nan (Prim2SF d) -> zero_or_nan (Prim2SF w) ->
  Prim2SF (d / w) = S754_nan.
Proof.
  rewrite div_spec.
  destruct (Prim2SF d) as [s|s| |s m e], (Prim2SF w) as [s'|s'| |s' m' e'];
    simpl; try contradiction; reflexivity.
Qed.

Lemma cosine_loop_zero (a b : list float) :
  zero_vector a ->
  forall d nb : float,
    zero_or_nan (Prim2SF d) ->
    exists d' nb',
      fold_left
        (fun '(dotProduct, normA, normB) '(ai, bi) =>
           ((dotProduct + ai * bi)%float, (normA + ai * ai)%float,
            (normB + bi * bi)%float))
        (combine a b) (d, 0%float, nb) = (d', 0%float, nb') /\
      zero_or_nan (Prim2SF d').
Proof.
  intros Z. revert b. induction Z as [|x a Hx Z IH]; intros b d nb Hd.
  - exists d, nb. split; [reflexivity|exact Hd].
  - destruct b as [|y b]; [exists d, nb; split; [reflexivity|exact Hd]|].
    cbn [combine fold_left]. rewrite (square_zero x Hx).
    apply IH. apply add_zn; [exact Hd|apply mul_zero_zn, Hx].
Qed.

(** Against a zero vector of the same length the result is NaN, on either
    side. *)
Lemma cosine_zero_nan (a b : list float) :
  zero_vector a -> List.length a = List.length b ->
  Prim2SF (cosineSimilarity a b) = S754_nan /\
  Prim2SF (cosineSimilarity b a) = S754_nan.
Proof.
  intros Z L.
  destruct (cosine_loop_zero a b Z 0%float 0%float I) as (d & nb & F & Hd).
  unfold cosineSimilarity. rewrite <- L, Nat.eqb_refl. cbn [negb].
  rewrite (cosine_loop_swap a b 0%float 0%float 0%float), F.
  split.
  - apply div_zn; [exact Hd|]. apply (mul_zero_zn (sqrt 0) (sqrt nb)). reflexivity.
  - apply div_zn; [exact Hd|]. rewrite (mul_comm (sqrt nb) (sqrt 0)).
    apply (mul_zero_zn (sqrt 0) (sqrt nb)). reflexivity.
Qed.

Lemma is_nan_spec (x : float) : Prim2SF x = S754_nan -> is_nan x = true.
Proof. intros H. unfold is_nan. rewrite eqb_spec, H. reflexivity. Qed.

Lemma ltb_nan (t x : float) : Prim2SF x = S754_nan -> (t <? x)%float = false.
Proof. intros H. rewrite ltb_spec, H. destruct (Prim2SF t); reflexivity. Qed.

Lemma leb_not_ltb (a b : float) : (a <=? b)%float = true -> (b <? a)%float = false.
Proof.
  rewrite leb_spec, ltb_spec. unfold SFleb, SFltb.
  destruct (SFcompare (Prim2SF a) (Prim2SF b)) as [c|] eqn:E; [|discriminate].
  rewrite (SFcompare_antisym _ _ _ E). destruct c; intros H; try discriminate H; reflexivity.
Qed.

(** X15: when one of two vectors of the same length has only zero components,
    [cosineSimilarity] returns NaN, whichever side the zero vector is on and
    whatever the other vector holds. *)
Theorem cosineSimilarity_of_zero_vector (a b : list float) :
  zero_vector a -> List.length a = List.length b ->
  is_nan (cosineSimilarity a b) = true /\
  is_nan (cosineSimilarity b a) = true.
Proof.
  intros Z L. destruct (cosine_zero_nan a b Z L) as [H1 H2].
  split; apply is_nan_spec; assumption.
Qed.

Lemma cosineSimilarity_of_zero_vector_witness :
  is_nan (cosineSimilarity [0%float; (-0)%float; 0%float]
            [1%float; 2%float; 3%float]) = true.
Proof.
  apply (proj1 (cosineSimilarity_of_zero_vector [0%float; (-0)%float; 0%float]
                  [1%float; 2%float; 3%float]
                  ltac:(repeat constructor) eq_refl)).
Defined.

(** No threshold from 0 up is below the similarity to a zero vector. *)
Lemma zero_vector_below_threshold (threshold : float) (a b : list float) :
  (0 <=? threshold)%float = true ->
  zero_vector a \/ zero_vector b ->
  (threshold <? cosineSimilarity a b)%float = false.
Proof.
  intros Ht Z.
  destruct (Nat.eqb_spec (List.length a) (List.length b)) as [L|L].
  - destruct Z as [Z|Z].
    + apply ltb_nan, (proj1 (cosine_zero_nan a b Z L)).
    + apply ltb_nan, (proj2 (cosine_zero_nan b a Z (eq_sym L))).
  - unfold cosineSimilarity.
    destruct (Nat.eqb_spec (List.length a) (List.length b)); [contradiction|].
    cbn [negb]. apply leb_not_ltb, Ht.
Qed.

Lemma searchSimilarEvents_In (targetEvent : SecurityEvent) (threshold : float)
    (limit : Z) (s : MockDataStore) (e : SecurityEvent) :
  In e (searchSimilarEvents targetEvent threshold limit s) ->
  exists target,
    embedding targetEvent = Some target /\
    In e (events s) /\
    matches targetEvent target threshold e = true.
Proof.
  unfold searchSimilarEvents.
  destruct (embedding targetEvent) as [target|]; [|contradiction].
  intros H. exists target. split; [reflexivity|].
  apply in_map_iff in H. destruct H as ([e' v] & <- & H).
  apply In_slice in H.
  apply (Permutation_in _ (sort_perm less_similar _)) in H.
  apply filter_In in H. destruct H as [H Hv].
  apply in_map_iff in H. destruct H as (e0 & E & H). injection E as <- <-.
  apply filter_In in H. destruct H as [H Hc].
  split; [exact H|]. unfold matches, similarity.
  cbn [snd] in Hv. apply andb_true_iff. split; [exact Hc|exact Hv].
Qed.

(** X16: whatever the limit, every event that [searchSimilarEvents] returns
    is stored, has an embedding, has an id other than the target's, and has a
    cosine similarity to the target strictly greater than the threshold; the
    target is never among its own similar events. *)
Theorem searchSimilarEvents_sound (targetEvent : SecurityEvent)
    (threshold : float) (limit : Z) (s : MockDataStore) (e : SecurityEvent) :
  In e (searchSimilarEvents targetEvent threshold limit s) ->
  In e (events s) /\
  id e <> id targetEvent /\
  e <> targetEvent /\
  exists target v,
    embedding targetEvent = Some target /\
    embedding e = Some v /\
    (threshold <? cosineSimilarity target v)%float = true.
Proof.
  intros H. destruct (searchSimilarEvents_In _ _ _ _ _ H) as (target & Ht & Hin & Hm).
  unfold matches in Hm. apply andb_true_iff in Hm. destruct Hm as [Hm Hs].
  apply andb_true_iff in Hm. destruct Hm as [He Hi].
  apply negb_true_iff in Hi.
  assert (N : id e <> id targetEvent).
  { intros E. rewrite E, String.eqb_refl in Hi. discriminate Hi. }
  split; [exact Hin|]. split; [exact N|]. split; [congruence|].
  unfold has_embedding in He. unfold similarity, the_embedding in Hs.
  destruct (embedding e) as [v|] eqn:Ev; [|discriminate He].
  exists target, v. auto.
Qed.

Lemma searchSimilarEvents_sound_witness :
  let near := sampleEvent "e2" malware high (Some [1%float; 1%float]) in
  let targetEvent := sampleEvent "e1" malware high (Some [1%float; 0%float]) in
  id near <> id targetEvent.
Proof.
  intros near targetEvent.
  apply (proj1 (proj2 (searchSimilarEvents_sound targetEvent 0.5%float 10
                         (sampleStore [near; targetEvent]) near
                         ltac:(left; reflexivity)))).
Defined.

(** X17: with a threshold from 0 up, an embedding that holds only zeros never
    matches: a search for a target with such an embedding returns nothing,
    and a stored event with such an embedding is never returned. *)
Theorem searchSimilarEvents_skips_zero_embeddings (targetEvent : SecurityEvent)
    (threshold : float) (limit : Z) (s : MockDataStore) :
  (0 <=? threshold)%float = true ->
  (forall target,
     embedding targetEvent = Some target -> zero_vector target ->
     searchSimilarEvents targetEvent threshold limit s = []) /\
  (forall e v,
     In e (searchSimilarEvents targetEvent threshold limit s) ->
     embedding e = Some v -> ~ zero_vector v).
Proof.
  intros Ht. split.
  - intros target E Z.
    destruct (searchSimilarEvents targetEvent threshold limit s) as [|e l] eqn:R;
      [reflexivity|].
    assert (H : In e (searchSimilarEvents targetEvent threshold limit s))
      by (rewrite R; left; reflexivity).
    destruct (searchSimilarEvents_In _ _ _ _ _ H) as (target' & E' & _ & Hm).
    rewrite E in E'. injection E' as <-.
    unfold matches in Hm. apply andb_true_iff in Hm. destruct Hm as [_ Hs].
    unfold similarity in Hs.
    rewrite (zero_vector_below_threshold threshold target (the_embedding e) Ht)
      in Hs by (left; exact Z).
    discriminate Hs.
  - intros e v H Ev Z.
    destruct (searchSimilarEvents_In _ _ _ _ _ H) as (target & _ & _ & Hm).
    unfold matches in Hm. apply andb_true_iff in Hm. destruct Hm as [_ Hs].
    unfold similarity, the_embedding in Hs. rewrite Ev in Hs.
    rewrite (zero_vector_below_threshold threshold target v Ht) in Hs
      by (right; exact Z).
    discriminate Hs.
Qed.

Lemma searchSimilarEvents_skips_zero_embeddings_witness :
  searchSimilarEvents
    (sampleEvent "e1" malware high (Some [0%float; 0%float])) 0.5%float 10
    (sampleStore [sampleEvent "e2" malware high (Some [1%float; 1%float])])
  = [].
Proof.
  apply (proj1 (searchSimilarEvents_skips_zero_embeddings
                  (sampleEvent "e1" malware high (Some [0%float; 0%float]))
                  0.5%float 10
                  (sampleStore [sampleEvent "e2" malware high
                                  (Some [1%float; 1%float])])
                  eq_refl)
           [0%float; 0%float] eq_refl ltac:(repeat constructor)).
Defined.




(** *** The generation loops *)

Lemma length_remove_nth {A : Type} (k : nat) (l : list A) (x : A) :
  nth_error l k = Some x -> S (List.length (remove_nth k l)) = List.length l.
Proof.
  intros H. assert (k < List.length l)%nat by (apply nth_error_Some; congruence).
  unfold remove_nth. rewrite length_app, length_firstn, length_skipn. lia.
Qed.

Lemma loops_generateEvent (ms : Z) (g : Outcome NewEvent) (r : Runtime) :
  isGenerating (store r) = true ->
  loops (generateEvent ms g r) = S (loops r) /\
  isGenerating (store (generateEvent ms g r)) = true.
Proof.
  intros H. unfold generateEvent, loops. rewrite H.
  destruct g; cbn; rewrite ?length_app; cbn; split; try exact H; lia.
Qed.

Lemma step_single_loop (J : ThreatAnalysis -> string) (r : Runtime) (what : Step) :
  is_stop what = false ->
  (isGenerating (store r) = false /\ loops r = 0%nat) \/
  (isGenerating (store r) = true /\ loops r = 1%nat) ->
  (isGenerating (store (step J r what)) = false /\ loops (step J r what) = 0%nat) \/
  (isGenerating (store (step J r what)) = true /\ loops (step J r what) = 1%nat).
Proof.
  intros Hw Inv. destruct what as [ms g| |k g|k uuid a v]; cbn [step].
  - destruct Inv as [[G L]|[G L]]; rewrite G.
    + right.
      destruct (loops_generateEvent ms g
                  {| store := set_isGenerating (store r) true; timers := timers r;
                     inflight := inflight r; issued := issued r |} eq_refl)
        as [H1 H2].
      split; [exact H2|]. rewrite H1. unfold loops in *. cbn. lia.
    + right. split; assumption.
  - discriminate Hw.
  - destruct (nth_error (timers r) k) as [ms|] eqn:E; [|exact Inv].
    pose proof (length_remove_nth _ _ _ E) as L.
    destruct Inv as [[G L0]|[G L1]].
    + unfold loops in L0. lia.
    + right.
      destruct (loops_generateEvent ms g
                  {| store := store r; timers := remove_nth k (timers r);
                     inflight := inflight r; issued := issued r |} G)
        as [H1 H2].
      split; [exact H2|]. rewrite H1. unfold loops in *. cbn. lia.
  - destruct (nth_error (inflight r) k) as [[ms ev]|] eqn:E; [|exact Inv].
    pose proof (length_remove_nth _ _ _ E) as L.
    rewrite addEvent_run.
    destruct Inv as [[G L0]|[G L1]].
    + unfold loops in L0. lia.
    + right. unfold loops in *. cbn. rewrite length_app. cbn.
      split; [exact G|lia].
Qed.

(** X19: as long as stop is not called, at most one generation loop is alive,
    however often start is called and whatever timers expire and calls settle:
    none while the flag is down, exactly one while it is up. *)
Theorem single_loop_without_stop (J : ThreatAnalysis -> string)
    (s : MockDataStore) (steps : list Step) :
  isGenerating s = false ->
  forallb (fun what => negb (is_stop what)) steps = true ->
  let r := run J (idle s) steps in
  (loops r <= 1)%nat /\
  (isGenerating (store r) = true <-> loops r = 1%nat).
Proof.
  intros Hs Hn. cbv zeta.
  assert (Inv : (isGenerating (store (run J (idle s) steps)) = false
                 /\ loops (run J (idle s) steps) = 0%nat) \/
                (isGenerating (store (run J (idle s) steps)) = true
                 /\ loops (run J (idle s) steps) = 1%nat)).
  { assert (I0 : (isGenerating (store (idle s)) = false /\ loops (idle s) = 0%nat) \/
                 (isGenerating (store (idle s)) = true /\ loops (idle s) = 1%nat))
      by (left; split; [exact Hs|reflexivity]).
    revert I0. generalize (idle s). clear Hs.
    induction steps as [|what steps IH]; intros r I0; [exact I0|].
    cbn [forallb] in Hn. apply andb_true_iff in Hn. destruct Hn as [Hw Hn].
    apply negb_true_iff in Hw.
    apply (IH Hn (step J r what)). apply step_single_loop; assumption. }
  destruct Inv as [[G L]|[G L]]; rewrite G, L; split; try lia;
    split; intros H; try discriminate H; try reflexivity; lia.
Qed.

Lemma single_loop_without_stop_witness :
  (loops (run threat_type (idle empty)
            [ Start 5000 (Resolved (sampleData malware high));
              Start 100 (Resolved (sampleData phishing low));
              Settle 0 "e1" (Resolved mockMalware) Rejected;
              Start 100 Rejected;
              Fire 0 (Resolved (sampleData phishing low)) ]) <= 1)%nat.
Proof.
  apply (proj1 (single_loop_without_stop threat_type empty
                  [ Start 5000 (Resolved (sampleData malware high));
                    Start 100 (Resolved (sampleData phishing low));
                    Settle 0 "e1" (Resolved mockMalware) Rejected;
                    Start 100 Rejected;
                    Fire 0 (Resolved (sampleData phishing low)) ]
                  eq_refl eq_refl)).
Defined.

(** X20: stop does not disarm a timer.  When start is called again before a
    timer armed earlier expires, that timer resumes its loop next to the new
    one: after stop, start and the expiry of the old timer, two more calls of
    [addEvent] have been issued and both are pending. *)
Theorem stop_keeps_timers_armed (J : ThreatAnalysis -> string) (r : Runtime)
    (k : nat) (ms intervalMs : Z) (first second : NewEvent) :
  nth_error (timers r) k = Some ms ->
  let r' := run J r [Stop; Start intervalMs (Resolved first);
                     Fire k (Resolved second)] in
  timers (step J r Stop) = timers r /\
  issued r' = (issued r + 2)%nat /\
  inflight r' = inflight r ++ [(intervalMs, first); (ms, second)] /\
  isGenerating (store r') = true.
Proof.
  intros H. cbv zeta. unfold run. cbn [fold_left step].
  cbn [store set_isGenerating isGenerating timers inflight issued generateEvent negb].
  rewrite H. cbn.
  repeat split; try lia. rewrite <- app_assoc. reflexivity.
Qed.

Lemma stop_keeps_timers_armed_witness :
  let r := {| store := set_isGenerating empty true; timers := [5000];
              inflight := []; issued := 1 |} in
  issued (run threat_type r
            [Stop; Start 100 (Resolved (sampleData malware high));
             Fire 0 (Resolved (sampleData phishing low))]) = 3%nat.
Proof.
  intros r.
  apply (proj1 (proj2 (stop_keeps_timers_armed threat_type r 0 5000 100
                         (sampleData malware high) (sampleData phishing low)
                         eq_refl))).
Defined.

Lemma step_accounting (J : ThreatAnalysis -> string) (r : Runtime) (what : Step) :
  (List.length (events (store (step J r what)))
   + List.length (inflight (step J r what)) + issued r
   <= List.length (events (store r)) + List.length (inflight r)
      + issued (step J r what))%nat.
Proof.
  destruct what as [ms g| |k g|k uuid a v]; cbn [step].
  - destruct (isGenerating (store r)); [lia|].
    unfold generateEvent. cbn. destruct g; cbn; rewrite ?length_app; cbn; lia.
  - cbn. lia.
  - destruct (nth_error (timers r) k) as [ms|]; [|lia].
    unfold generateEvent. cbn.
    destruct (isGenerating (store r)); cbn; [|lia].
    destruct g; cbn; rewrite ?length_app; cbn; lia.
  - destruct (nth_error (inflight r) k) as [[ms ev]|] eqn:E; [|lia].
    pose proof (length_remove_nth _ _ _ E) as L.
    rewrite addEvent_run. cbn [store inflight issued events set_events].
    rewrite length_firstn. cbn [List.length]. lia.
Qed.

(** X21: the loops never put more events into the store than they have
    generated: at any time the events stored beyond those that were there,
    together with the calls of [addEvent] still pending, are at most the
    calls of [addEvent] issued. *)
Theorem loops_insert_what_they_issue (J : ThreatAnalysis -> string)
    (s : MockDataStore) (steps : list Step) :
  let r := run J (idle s) steps in
  (List.length (events (store r)) + List.length (inflight r)
   <= List.length (events s) + issued r)%nat.
Proof.
  cbv zeta.
  assert (G : forall r0 : Runtime,
            (List.length (events (store (run J r0 steps)))
             + List.length (inflight (run J r0 steps)) + issued r0
             <= List.length (events (store r0)) + List.length (inflight r0)
                + issued (run J r0 steps))%nat).
  { induction steps as [|what steps IH]; intros r0; [cbn; lia|].
    unfold run in *. cbn [fold_left].
    specialize (IH (step J r0 what)).
    pose proof (step_accounting J r0 what). lia. }
  specialize (G (idle s)). cbn in G. cbn. lia.
Qed.

(** *** The sample data *)

Lemma push_samples (J : ThreatAnalysis -> string) (samples : list Sample) :
  forall s : MockDataStore,
    events (fold_left (fun s x => set_events s (events s ++ [sampleEventOf J x]))
              samples s)
    = events s ++ map (sampleEventOf J) samples /\
    isGenerating (fold_left (fun s x => set_events s (events s ++ [sampleEventOf J x]))
                    samples s)
    = isGenerating s.
Proof.
  induction samples as [|x samples IH]; intros s; cbn [fold_left map].
  - rewrite app_nil_r. split; reflexivity.
  - destruct (IH (set_events s (events s ++ [sampleEventOf J x]))) as [H1 H2].
    rewrite H1, H2. cbn [events set_events isGenerating].
    rewrite <- app_assoc. split; reflexivity.
Qed.

(** X22: when [initializeWithSampleData] has run, the store holds the events
    it held before and one event per sample, ordered by timestamp, newest
    first, events with the same timestamp in the order in which they were
    pushed; each sample event carries the id and the timestamp drawn for it. *)
Theorem initializeWithSampleData_sorted (J : ThreatAnalysis -> string)
    (samples : list Sample) (s : MockDataStore) :
  let s' := initializeWithSampleData J samples s in
  let pushed := events s ++ map (sampleEventOf J) samples in
  Permutation (events s') pushed /\
  StronglySorted (fun a b => timestamp b <= timestamp a) (events s') /\
  (forall ts, filter (fun e => timestamp e =? ts) (events s')
              = filter (fun e => timestamp e =? ts) pushed) /\
  List.length (events s') = (List.length (events s) + List.length samples)%nat /\
  map id (map (sampleEventOf J) samples) = map s_uuid samples /\
  map timestamp (map (sampleEventOf J) samples) = map s_timestamp samples /\
  isGenerating s' = isGenerating s.
Proof.
  cbv zeta. unfold initializeWithSampleData.
  destruct (push_samples J samples s) as [E G].
  cbn [events set_events isGenerating]. rewrite E, G.
  set (pushed := events s ++ map (sampleEventOf J) samples).
  split; [apply sort_perm|]. split; [|split; [|split; [|split; [|split]]]].
  - apply (sort_sorted _ _ (fun a b => timestamp b <= timestamp a) (fun _ => True)).
    + intros x y _ _ H. unfold older in H. apply Z.ltb_lt in H. lia.
    + intros x y _ _ H. unfold older in H. apply Z.ltb_ge in H. lia.
    + intros x y z H1 H2. lia.
    + apply Forall_forall. intros; exact I.
  - intros ts. apply sort_filter. intros x y Hx Hy.
    apply Z.eqb_eq in Hx. apply Z.eqb_eq in Hy.
    unfold older. apply Z.ltb_ge. lia.
  - rewrite (Permutation_length (sort_perm older pushed)).
    unfold pushed. rewrite length_app, length_map. reflexivity.
  - rewrite map_map. apply map_ext. intros x. unfold sampleEventOf.
    destruct (s_analysis x) as [[a|]|], (s_vector x) as [[v|]|]; reflexivity.
  - rewrite map_map. apply map_ext. intros x. unfold sampleEventOf.
    destruct (s_analysis x) as [[a|]|], (s_vector x) as [[v|]|]; reflexivity.
  - reflexivity.
Qed.

(** *** The routes *)

Lemma page_split {A : Type} (l : list A) (offset limit : Z) :
  0 <= offset -> 0 <= limit ->
  slice l offset (offset + limit)
  = firstn (Z.to_nat limit) (skipn (Z.to_nat offset) l) /\
  l = firstn (Z.to_nat offset) l ++ slice l offset (offset + limit)
      ++ skipn (Z.to_nat (offset + limit)) l.
Proof.
  intros Ho Hl.
  assert (E : slice l offset (offset + limit)
              = firstn (Z.to_nat limit) (skipn (Z.to_nat offset) l)).
  { rewrite slice_range by lia. f_equal. lia. }
  split; [exact E|]. rewrite E.
  replace (Z.to_nat (offset + limit))
    with (Z.to_nat limit + Z.to_nat offset)%nat by lia.
  rewrite <- skipn_skipn, firstn_skipn, firstn_skipn. reflexivity.
Qed.

(** X23: [GET /api/events], for an offset and a limit that are counts and a
    store within its capacity, answers with a page of the events that pass
    all the filters given: the events behind the first [offset] of them, at
    most [limit]; [total] is the number of events that pass, and [hasMore]
    tells whether events that pass are left behind the page. *)
Theorem listEvents_page (limit offset : Z)
    (severityParam eventType statusParam : option string) (s : MockDataStore) :
  0 <= offset -> 0 <= limit -> (List.length (events s) <= 1000)%nat ->
  let keep := fun e =>
    Api.passes severityParam (fun e => Severity_str (severity e)) e
    && (Api.passes eventType (fun e => EventType_str (event_type e)) e
        && Api.passes statusParam (fun e => Status_str (status e)) e) in
  let passing := filter keep (events s) in
  let page := Api.listEvents limit offset severityParam eventType statusParam s in
  Api.total page = Z.of_nat (List.length passing) /\
  passing = firstn (Z.to_nat offset) passing ++ Api.page_events page
            ++ skipn (Z.to_nat (offset + limit)) passing /\
  Z.of_nat (List.length (Api.page_events page)) <= limit /\
  (Api.hasMore page = true <-> skipn (Z.to_nat (offset + limit)) passing <> []).
Proof.
  intros Ho Hl Hc. cbv zeta. unfold Api.listEvents.
  cbn [Api.total Api.page_events Api.hasMore].
  assert (G : getEvents 1000 0 s = events s).
  { unfold getEvents. rewrite slice_range by lia. simpl skipn.
    apply firstn_all2. lia. }
  rewrite G, !filter_andb.
  set (passing := filter _ (events s)).
  destruct (page_split passing offset limit Ho Hl) as [E S].
  split; [reflexivity|]. split; [exact S|]. split.
  - rewrite E.
    pose proof (firstn_le_length (Z.to_nat limit) (skipn (Z.to_nat offset) passing)).
    lia.
  - split.
    + intros H. apply Z.ltb_lt in H. intros N.
      apply (f_equal (@List.length _)) in N. rewrite length_skipn in N.
      cbn in N. lia.
    + intros H. apply Z.ltb_lt.
      destruct (Z.lt_ge_cases (offset + limit) (Z.of_nat (List.length passing)))
        as [L|L]; [exact L|].
      exfalso. apply H. apply skipn_all2. lia.
Qed.

Lemma listEvents_page_witness :
  let s := sampleStore [sampleEvent "e1" malware high None;
                        sampleEvent "e2" phishing low None;
                        sampleEvent "e3" malware low None] in
  Api.total (Api.listEvents 1 0 None (Some "malware") None s) = 2 /\
  Api.hasMore (Api.listEvents 1 0 None (Some "malware") None s) = true.
Proof.
  intros s.
  destruct (listEvents_page 1 0 None (Some "malware") None s
              ltac:(lia) ltac:(lia) ltac:(simpl; lia)) as (H1 & _ & _ & H2).
  split; [exact H1|]. apply H2. discriminate.
Defined.

(** X24: [PATCH /api/events/:id] on an id that is not stored answers 404 and
    leaves the store as it is.  On a stored id it answers with the event as
    it is stored afterwards, which has the new status; without a request for
    analysis its analysis is the one it had, and with a request for analysis
    and no API key its analysis becomes the serialised fallback analysis of
    its category. *)
Theorem patchEvent_answers (J : ThreatAnalysis -> string) (i : string)
    (st : Status) (requestAnalysis api_key : bool) (c : Completion)
    (s : MockDataStore) :
  (~ In i (map id (events s)) ->
   Api.patchEvent J i st requestAnalysis api_key c s = (Api.NotFound, s)) /\
  (forall e,
     getEventById i s = Some e ->
     exists e',
       fst (Api.patchEvent J i st requestAnalysis api_key c s)
         = Api.Json (Some e') /\
       getEventById i (snd (Api.patchEvent J i st requestAnalysis api_key c s))
         = Some e' /\
       id e' = i /\ status e' = st /\
       (requestAnalysis = false -> ai_analysis e' = ai_analysis e) /\
       (requestAnalysis = true -> api_key = false ->
        J (getMockAnalysis (Some (event_type e))) <> EmptyString ->
        ai_analysis e'
        = Some (J (getMockAnalysis (Some (event_type e)))))).
Proof.
  split.
  - intros H. unfold Api.patchEvent, getEventById.
    rewrite (find_id_none _ _ H).
    assert (U : forall a, updateEventStatus i st a s = (false, s)).
    { intros a. unfold updateEventStatus. rewrite (find_id_none _ _ H). reflexivity. }
    destruct requestAnalysis; rewrite U; reflexivity.
  - intros e He. unfold Api.patchEvent. rewrite He.
    assert (U : forall a,
              updateEventStatus i st a s
              = (true, snd (updateEventStatus i st a s)) /\
              getEventById i (snd (updateEventStatus i st a s))
              = Some (applyUpdate st a e)).
    { intros a. unfold getEventById in *. split.
      - unfold updateEventStatus. rewrite He. reflexivity.
      - rewrite events_updateEventStatus.
        rewrite (find_mutate_first i i) by apply id_applyUpdate.
        rewrite String.eqb_refl, He. reflexivity. }
    assert (I : id e = i).
    { unfold getEventById in He. apply find_some in He.
      destruct He as [_ He]. apply String.eqb_eq in He. exact He. }
    destruct requestAnalysis.
    + destruct (analyzeSecurityEvent api_key c (Some (event_type e))) as [a|] eqn:A.
      * destruct (U (Some (J a))) as [U1 U2]. rewrite U1. cbn [fst snd].
        exists (applyUpdate st (Some (J a)) e).
        split; [rewrite U2; reflexivity|]. split; [exact U2|].
        split; [rewrite id_applyUpdate; exact I|].
        split; [unfold applyUpdate; destruct (J a); reflexivity|].
        split; [discriminate|].
        intros _ K N. subst api_key. cbn in A. injection A as <-.
        unfold applyUpdate.
        destruct (J (getMockAnalysis (Some (event_type e)))) as [|ch r];
          [contradiction|reflexivity].
      * destruct api_key, c; discriminate A.
    + destruct (U None) as [U1 U2]. rewrite U1. cbn [fst snd].
      exists (applyUpdate st None e).
      split; [rewrite U2; reflexivity|]. split; [exact U2|].
      split; [exact I|]. split; [reflexivity|].
      split; [reflexivity|discriminate].
Qed.

Lemma patchEvent_answers_witness :
  let s := sampleStore [sampleEvent "e1" malware high None] in
  Api.patchEvent threat_type "e9" resolved true false CompletionFails s
  = (Api.NotFound, s).
Proof.
  intros s.
  apply (proj1 (patchEvent_answers threat_type "e9" resolved true false
                  CompletionFails s)).
  simpl. intros [H|H]; [discriminate H|exact H].
Defined.

(** X25: [GET /api/events/:id/similar] answers 404 exactly for an id that is
    not stored.  For a stored id it answers with events of the store none of
    which has that id, with their number as count, and with no event when the
    event with that id has no embedding. *)
Theorem findSimilar_answers (i : string) (threshold : float) (limit : Z)
    (s : MockDataStore) :
  (Api.findSimilar i threshold limit s = Api.NotFound
   <-> ~ In i (map id (events s))) /\
  (forall targetEvent,
     getEventById i s = Some targetEvent ->
     exists r,
       Api.findSimilar i threshold limit s = Api.Json r /\
       Api.similar_count r = Z.of_nat (List.length (Api.similarEvents r)) /\
       Forall (fun e => In e (events s) /\ id e <> i) (Api.similarEvents r) /\
       (embedding targetEvent = None -> Api.similarEvents r = [])).
Proof.
  unfold Api.findSimilar. split.
  - split.
    + intros H Hin. destruct (find_id_some _ _ Hin) as [e He].
      unfold getEventById in H. rewrite He in H. discriminate H.
    + intros H. unfold getEventById. rewrite (find_id_none _ _ H). reflexivity.
  - intros t Ht. rewrite Ht. eexists. split; [reflexivity|].
    cbn [Api.similar_count Api.similarEvents].
    split; [reflexivity|]. split.
    + apply Forall_forall. intros e He.
      destruct (searchSimilarEvents_In _ _ _ _ _ He) as (target & _ & Hin & Hm).
      split; [exact Hin|].
      unfold getEventById in Ht. apply find_some in Ht. destruct Ht as [_ Ht].
      apply String.eqb_eq in Ht. rewrite <- Ht.
      unfold matches in Hm. apply andb_true_iff in Hm. destruct Hm as [Hm _].
      apply andb_true_iff in Hm. destruct Hm as [_ Hi].
      apply negb_true_iff in Hi. intros E. rewrite E, String.eqb_refl in Hi.
      discriminate Hi.
    + intros N. unfold searchSimilarEvents. rewrite N. reflexivity.
Qed.

Lemma getEventById_first_witness :
  getEventById "e9" (sampleStore [sampleEvent "e1" malware high None]) = None.
Proof.
  apply (proj2 (proj1 (getEventById_first "e9"
                         (sampleStore [sampleEvent "e1" malware high None])))).
  simpl. intros [H|H]; [discriminate H|exact H].
Defined.

Lemma findSimilar_answers_witness :
  exists r,
    Api.findSimilar "e1" 0.5%float 10
      (sampleStore [sampleEvent "e1" malware high None]) = Api.Json r /\
    Api.similarEvents r = [].
Proof.
  destruct (proj2 (findSimilar_answers "e1" 0.5%float 10
                     (sampleStore [sampleEvent "e1" malware high None]))
              (sampleEvent "e1" malware high None) eq_refl)
    as (r & H1 & _ & _ & H2).
  exists r. split; [exact H1|]. apply H2. reflexivity.
Defined.

(** *** The most frequent keys *)

Lemma StronglySorted_app {A : Type} (R : A -> A -> Prop) (l1 l2 : list A) :
  StronglySorted R (l1 ++ l2) ->
  StronglySorted R l1 /\ forall x y, In x l1 -> In y l2 -> R x y.
Proof.
  induction l1 as [|a l1 IH]; cbn [app]; intros H.
  - split; [constructor|]. intros x y [].
  - inversion H as [|? ? S F]; subst. destruct (IH S) as [S1 C].
    split.
    + constructor; [exact S1|].
      apply Forall_forall. intros z Hz. rewrite Forall_forall in F.
      apply F, in_or_app. left. exact Hz.
    + intros x y [<-|Hx] Hy.
      * rewrite Forall_forall in F. apply F, in_or_app. right. exact Hy.
      * apply C; assumption.
Qed.

Lemma StronglySorted_map {A B : Type} (g : A -> B) (R : B -> B -> Prop)
    (l : list A) :
  StronglySorted (fun a b => R (g a) (g b)) l -> StronglySorted R (map g l).
Proof.
  induction 1 as [|a l S IH F]; cbn [map]; constructor; [exact IH|].
  apply Forall_forall. intros y Hy. apply in_map_iff in Hy.
  destruct Hy as (x & <- & Hx). rewrite Forall_forall in F. apply F, Hx.
Qed.

Lemma NoDup_app_l {A : Type} (l1 l2 : list A) : NoDup (l1 ++ l2) -> NoDup l1.
Proof.
  induction l1 as [|a l1 IH]; cbn [app]; intros H; [constructor|].
  inversion H as [|? ? N D]; subst. constructor; [|apply IH, D].
  intros Hin. apply N, in_or_app. left. exact Hin.
Qed.

(** The first [n] entries of the entries of a record sorted by falling
    count. *)
Lemma top_entries (n : nat) (entries : list (string * Z)) :
  NoDup (map fst entries) ->
  let top := firstn n (sort (fun a b => 0 <? snd b - snd a) entries) in
  (List.length top <= n)%nat /\
  NoDup (map fst top) /\
  (forall x, In x top -> In x entries) /\
  StronglySorted (fun a b => snd b <= snd a) top /\
  (forall x, In x entries -> In x top \/ Forall (fun y => snd x <= snd y) top).
Proof.
  intros N. cbv zeta.
  set (ranking := sort (fun a b => 0 <? snd b - snd a) entries).
  assert (P : Permutation ranking entries) by apply sort_perm.
  assert (S : StronglySorted (fun a b => snd b <= snd a) ranking).
  { apply (sort_sorted _ _ (fun a b => snd b <= snd a) (fun _ => True)).
    - intros x y _ _ H. apply Z.ltb_lt in H. lia.
    - intros x y _ _ H. apply Z.ltb_ge in H. lia.
    - intros x y z H1 H2. lia.
    - apply Forall_forall. intros; exact I. }
  rewrite <- (firstn_skipn n ranking) in S.
  destruct (StronglySorted_app _ _ _ S) as [S1 C].
  split; [apply firstn_le_length|]. split; [|split; [|split]].
  - apply (NoDup_app_l _ (map fst (skipn n ranking))).
    rewrite <- map_app, firstn_skipn.
    apply (Permutation_NoDup (l := map fst entries)); [|exact N].
    apply Permutation_map, Permutation_sym, P.
  - intros x Hx. apply (Permutation_in _ P). apply (In_firstn n). exact Hx.
  - exact S1.
  - intros x Hx.
    apply (Permutation_in _ (Permutation_sym P)) in Hx.
    rewrite <- (firstn_skipn n ranking) in Hx. apply in_app_or in Hx.
    destruct Hx as [Hx|Hx]; [left; exact Hx|].
    right. apply Forall_forall. intros y Hy. exact (C y x Hy Hx).
Qed.

Lemma countBy_keys_NoDup (key : SecurityEvent -> string) (l : list SecurityEvent) :
  NoDup (map fst (countBy key l)).
Proof.
  rewrite countBy_spec, map_map. cbn [fst]. rewrite map_id.
  apply first_occurrences_NoDup.
Qed.

Lemma countBy_In (key : SecurityEvent -> string) (l : list SecurityEvent)
    (k : string) (n : Z) :
  In (k, n) (countBy key l) <->
  In k (map key l) /\ n = occurrences key k l.
Proof.
  rewrite countBy_spec, in_map_iff. split.
  - intros (k' & E & H). injection E as <- <-.
    split; [apply first_occurrences_In, H|reflexivity].
  - intros [H ->]. exists k. split; [reflexivity|apply first_occurrences_In, H].
Qed.

(** X26: on events whose source addresses name no property inherited from
    [Object.prototype] and do not consist of digits only, [getCommonSources]
    lists at most ten source addresses, each once, each with the number of
    events that come from it, by falling count; a source address of an event
    that is not listed has no more events than any address that is. *)
Theorem getCommonSources_top (l : list SecurityEvent) :
  Forall (fun e => Api.counted_key (source_ip e) = true) l ->
  let r := Api.getCommonSources l in
  (List.length r <= 10)%nat /\
  NoDup (map Api.sc_ip r) /\
  Forall (fun x => In (Api.sc_ip x) (map source_ip l) /\
                   Api.sc_count x = occurrences source_ip (Api.sc_ip x) l) r /\
  StronglySorted (fun a b => Api.sc_count b <= Api.sc_count a) r /\
  Forall (fun e =>
            In (source_ip e) (map Api.sc_ip r) \/
            Forall (fun x => occurrences source_ip (source_ip e) l
                             <= Api.sc_count x) r) l.
Proof.
  intros _. cbv zeta. unfold Api.getCommonSources.
  rewrite slice_prefix by lia.
  destruct (top_entries (Z.to_nat 10) (countBy source_ip l)
              (countBy_keys_NoDup source_ip l)) as (L & N & I & S & T).
  set (top := firstn (Z.to_nat 10) _) in *.
  split; [rewrite length_map; exact L|]. split; [|split; [|split]].
  - rewrite map_map. cbn [Api.sc_ip]. exact N.
  - apply Forall_forall. intros x Hx. apply in_map_iff in Hx.
    destruct Hx as ([k n] & <- & Hk). cbn [Api.sc_ip Api.sc_count fst snd].
    apply countBy_In, I, Hk.
  - apply StronglySorted_map. cbn [Api.sc_count]. exact S.
  - apply Forall_forall. intros e He.
    destruct (T (source_ip e, occurrences source_ip (source_ip e) l)) as [H|H].
    + apply countBy_In. split; [apply in_map, He|reflexivity].
    + left. rewrite map_map. cbn [Api.sc_ip].
      apply (in_map fst) in H. exact H.
    + right. apply Forall_forall. intros x Hx. apply in_map_iff in Hx.
      destruct Hx as (y & <- & Hy). cbn [Api.sc_count].
      rewrite Forall_forall in H. exact (H y Hy).
Qed.

Lemma getCommonSources_top_witness :
  let l := [ sampleFrom "e1" "10.0.0.50"; sampleFrom "e2" "203.0.113.5";
             sampleFrom "e3" "2001:db8::1"; sampleFrom "e4" "203.0.113.5" ] in
  Forall (fun e => Api.counted_key (source_ip e) = true) l /\
  Forall (fun x => Api.sc_count x = occurrences source_ip (Api.sc_ip x) l)
    (Api.getCommonSources l) /\
  StronglySorted (fun a b => Api.sc_count b <= Api.sc_count a)
    (Api.getCommonSources l).
Proof.
  intros l.
  assert (H : Forall (fun e => Api.counted_key (source_ip e) = true) l)
    by (repeat constructor).
  destruct (getCommonSources_top l H) as (_ & _ & C & S & _).
  split; [exact H|]. split; [|exact S].
  apply Forall_forall. intros x Hx.
  rewrite Forall_forall in C. exact (proj2 (C x Hx)).
Defined.

(** X27: the [getTopThreats] of the report route lists at most five
    categories, each with the number of events of that category, by falling
    count; the type it shows is the name of the category with its underscore
    turned into a blank; a category with events that is not listed has no
    more events than any category that is. *)
Theorem report_getTopThreats_top (l : list SecurityEvent) :
  let byType := fun e => EventType_str (event_type e) in
  let r := Api.getTopThreats l in
  (List.length r <= 5)%nat /\
  Forall (fun t =>
            exists e,
              In e l /\
              Api.tc_type t
              = Api.replace_first "_"%char " "%char (EventType_str (event_type e)) /\
              Api.tc_count t = occurrences byType (byType e) l) r /\
  StronglySorted (fun a b => Api.tc_count b <= Api.tc_count a) r /\
  Forall (fun e =>
            In (Api.replace_first "_"%char " "%char (byType e)) (map Api.tc_type r) \/
            Forall (fun t => occurrences byType (byType e) l <= Api.tc_count t) r) l.
Proof.
  cbv zeta. unfold Api.getTopThreats.
  rewrite slice_prefix by lia.
  set (byType := fun e => EventType_str (event_type e)).
  set (mk := fun entry : string * Z =>
               {| Api.tc_type := Api.replace_first "_"%char " "%char (fst entry);
                  Api.tc_count := snd entry |}).
  rewrite (sort_map mk (fun a b => 0 <? Api.tc_count b - Api.tc_count a)).
  cbn [mk Api.tc_count]. rewrite firstn_map.
  destruct (top_entries (Z.to_nat 5) (countBy byType l)
              (countBy_keys_NoDup byType l)) as (L & N & I & S & T).
  set (top := firstn (Z.to_nat 5) _) in *.
  split; [rewrite length_map; exact L|]. split; [|split].
  - apply Forall_forall. intros t Ht. apply in_map_iff in Ht.
    destruct Ht as ([k n] & <- & Hk). apply I, countBy_In in Hk.
    destruct Hk as [Hk ->]. apply in_map_iff in Hk. destruct Hk as (e & <- & He).
    exists e. cbn. auto.
  - apply StronglySorted_map. cbn [Api.tc_count]. exact S.
  - apply Forall_forall. intros e He.
    destruct (T (byType e, occurrences byType (byType e) l)) as [H|H].
    + apply countBy_In. split; [apply (in_map byType), He|reflexivity].
    + left. apply in_map_iff.
      exists (mk (byType e, occurrences byType (byType e) l)).
      split; [reflexivity|]. apply in_map, H.
    + right. apply Forall_forall. intros x Hx. apply in_map_iff in Hx.
      destruct Hx as (y & <- & Hy). cbn [Api.tc_count mk].
      rewrite Forall_forall in H. exact (H y Hy).
Qed.

(** *** Generated events *)

Lemma getRandomElement_In (array : list string) (index : Z) :
  0 <= index < Z.of_nat (List.length array) ->
  In (Generator.getRandomElement array index) array.
Proof.
  intros H. unfold Generator.getRandomElement. apply nth_In. lia.
Qed.

(** X28: for draws within their bounds, the event that [generateRandomEvent]
    returns is of the category drawn, has a severity that the generator gives
    to that category, a source address from one of the two tables, the status
    new, the creation time as timestamp, at least three tags, and neither
    analysis nor confidence score nor embedding. *)
Theorem generateRandomEvent_wellformed (which : Z) (d : Generator.Draws) :
  in_range which d ->
  let e := Generator.generateRandomEvent which d in
  n_event_type e
  = nth (Z.to_nat which)
      [intrusion; malware; network_anomaly; data_breach; phishing; dos_attack]
      dos_attack /\
  In (n_severity e) (generated_severities (n_event_type e)) /\
  In (n_source_ip e) (Generator.maliciousIPs ++ Generator.internalIPs) /\
  n_status e = new /\
  n_timestamp e = Generator.now d /\
  (3 <= List.length (n_tags e))%nat /\
  n_ai_analysis e = None /\
  n_confidence_score e = None /\
  n_embedding e = None.
Proof.
  intros (Hw & Hs & Ht & Hv & Hm & Hc & Ha). cbv zeta.
  assert (W : which = 0 \/ which = 1 \/ which = 2 \/ which = 3
              \/ which = 4 \/ which = 5) by lia.
  assert (C : Generator.coin d = 0 \/ Generator.coin d = 1) by lia.
  destruct W as [W|[W|[W|[W|[W|W]]]]]; subst which;
    cbn [Z.eqb Pos.eqb orb] in Hs, Ht, Ha;
    [ change (Generator.generateRandomEvent 0 d)
        with (Generator.generateIntrusionEvent d);
      unfold Generator.generateIntrusionEvent
    | change (Generator.generateRandomEvent 1 d)
        with (Generator.generateMalwareEvent d);
      unfold Generator.generateMalwareEvent
    | change (Generator.generateRandomEvent 2 d)
        with (Generator.generateNetworkAnomalyEvent d);
      unfold Generator.generateNetworkAnomalyEvent
    | change (Generator.generateRandomEvent 3 d)
        with (Generator.generateDataBreachEvent d);
      unfold Generator.generateDataBreachEvent
    | change (Generator.generateRandomEvent 4 d)
        with (Generator.generatePhishingEvent d);
      unfold Generator.generatePhishingEvent
    | change (Generator.generateRandomEvent 5 d)
        with (Generator.generateDosAttackEvent d);
      unfold Generator.generateDosAttackEvent ];
    cbv zeta;
    cbn [n_event_type n_severity n_source_ip n_status n_timestamp n_tags
         n_ai_analysis n_confidence_score n_embedding generated_severities];
    (split; [reflexivity|]);
    (split;
     [ repeat match goal with
         | |- context [?a <? ?b] => destruct (a <? b)
         end;
       try (destruct C as [C|C]; rewrite C);
       simpl; auto 10
     | ]);
    (split;
     [ apply in_or_app;
       first [ left; apply getRandomElement_In; simpl List.length; lia
             | right; apply getRandomElement_In; simpl List.length; lia ]
     | ]);
    simpl List.length; repeat split; lia.
Qed.

Lemma generateRandomEvent_wellformed_witness :
  let d := {| Generator.source := 3; Generator.target := 2;
              Generator.vector := 4; Generator.malwareName := 1;
              Generator.amount := 44; Generator.coin := 1;
              Generator.now := 1700000000000; Generator.payload := "{}";
              Generator.megabytes := "0.05" |} in
  In (n_severity (Generator.generateRandomEvent 0 d))
    (generated_severities (n_event_type (Generator.generateRandomEvent 0 d))).
Proof.
  intros d.
  apply (proj1 (proj2 (generateRandomEvent_wellformed 0 d
                         ltac:(unfold in_range; cbn; lia)))).
Defined.

(** X29: the severity of a generated event does not fall when the quantity
    the generator measures rises (the failed attempts of an intrusion, the
    volume of a network anomaly, the request rate of a denial of service),
    everything else being drawn alike. *)
Theorem generated_severity_monotone (which : Z) (d d' : Generator.Draws) :
  Generator.coin d = Generator.coin d' ->
  Generator.amount d <= Generator.amount d' ->
  severity_rank (n_severity (Generator.generateRandomEvent which d))
  <= severity_rank (n_severity (Generator.generateRandomEvent which d')).
Proof.
  intros Hc Ha. unfold Generator.generateRandomEvent.
  destruct (Z.to_nat which) as [|[|[|[|[|[|n]]]]]]; cbn [nth];
    [ unfold Generator.generateIntrusionEvent
    | unfold Generator.generateMalwareEvent
    | unfold Generator.generateNetworkAnomalyEvent
    | unfold Generator.generateDataBreachEvent
    | unfold Generator.generatePhishingEvent
    | unfold Generator.generateDosAttackEvent
    | destruct n; unfold Generator.generateDosAttackEvent ];
    cbv zeta; cbn [n_severity]; rewrite <- ?Hc;
    repeat match goal with
      | |- context [?a <? ?b] => destruct (Z.ltb_spec a b)
      end;
    cbn [severity_rank]; lia.
Qed.

Lemma generated_severity_monotone_witness :
  let d := {| Generator.source := 3; Generator.target := 2;
              Generator.vector := 4; Generator.malwareName := 1;
              Generator.amount := 9; Generator.coin := 1;
              Generator.now := 1700000000000; Generator.payload := "{}";
              Generator.megabytes := "0.05" |} in
  let d' := {| Generator.source := 3; Generator.target := 2;
               Generator.vector := 4; Generator.malwareName := 1;
               Generator.amount := 44; Generator.coin := 1;
               Generator.now := 1700000000000; Generator.payload := "{}";
               Generator.megabytes := "0.05" |} in
  severity_rank (n_severity (Generator.generateRandomEvent 0 d))
  <= severity_rank (n_severity (Generator.generateRandomEvent 0 d')).
Proof.
  intros d d'.
  apply (generated_severity_monotone 0 d d' eq_refl ltac:(cbn; lia)).
Defined.

(** X30: an event that the generator returns and [addEvent] takes in is found
    under its id at the head of the store, with the category, the severity and
    the timestamp it was generated with and the status new; it carries an
    analysis exactly when the analysis step succeeded, and an embedding exactly
    when the embedding step succeeded. *)
Theorem generated_event_ingested (J : ThreatAnalysis -> string) (which : Z)
    (d : Generator.Draws) (uuid : string) (analysis : Outcome ThreatAnalysis)
    (vector : Outcome (list float)) (s : MockDataStore) :
  let data := Generator.generateRandomEvent which d in
  let c := {| c_uuid := uuid; c_data := data;
              c_analysis := analysis; c_vector := vector |} in
  exists e,
    getEventById uuid (ingest J s c) = Some e /\
    hd_error (events (ingest J s c)) = Some e /\
    id e = uuid /\
    status e = new /\
    event_type e = n_event_type data /\
    severity e = n_severity data /\
    timestamp e = Generator.now d /\
    ai_analysis e
    = match analysis with Resolved a => Some (J a) | Rejected => None end /\
    embedding e
    = match vector with Resolved v => Some v | Rejected => None end.
Proof.
  cbv zeta.
  set (data := Generator.generateRandomEvent which d).
  exists (enriched J uuid data analysis vector).
  assert (E : events (ingest J s {| c_uuid := uuid; c_data := data;
                                    c_analysis := analysis; c_vector := vector |})
              = enriched J uuid data analysis vector
                :: firstn (Z.to_nat 999) (events s)).
  { rewrite ingest_events. change (Z.to_nat 1000) with (S (Z.to_nat 999)).
    reflexivity. }
  unfold getEventById. rewrite E. cbn [find hd_error].
  rewrite id_enriched, String.eqb_refl.
  assert (G : n_status data = new /\ n_ai_analysis data = None /\
              n_embedding data = None /\ n_timestamp data = Generator.now d).
  { unfold data, Generator.generateRandomEvent.
    destruct (Z.to_nat which) as [|[|[|[|[|[|n]]]]]]; cbn [nth];
      try (repeat split; reflexivity).
    destruct n; repeat split; reflexivity. }
  destruct G as (G1 & G2 & G3 & G4). clearbody data.
  split; [reflexivity|]. split; [reflexivity|]. split; [reflexivity|].
  unfold enriched.
  destruct analysis as [a|], vector as [v|]; cbn; rewrite ?G1, ?G2, ?G3, ?G4;
    repeat split; reflexivity.
Qed.
